(** * Package log: a leveled key-value logging facade over zap

    A shallow embedding of the facade's own code: configuration
    translation, the write-syncer builder, the severity-range predicate,
    tee assembly, the verbosity views and key-value normalisation.

    The structured-logging engine (zap, zapcore) and the rotating file
    writer (lumberjack) are external collaborators.  They are modelled
    only as far as the facade touches them: the values it builds from
    them are data, and every call it makes into them is recorded, in
    order, in a trace carried by the world.  The two calls that only
    copy a logger, with a name or with fields, are plain functions. *)

From Stdlib Require Import ZArith Lia.
From stdpp Require Import base option list strings gmap sorting.

Set Warnings "-register-all".

(** ** Errors and panics *)

(** Go [error] values: a leaf error, or the result of [fmt.Errorf] with
    the [%+v] rendering of a slice of errors. *)
Inductive error : Type :=
| Err (msg : string)
| Errorf (format : string) (errs : list error).

(** The value carried by a Go [panic]. *)
Inductive PanicValue : Type :=
| PanicString (s : string)
| PanicError (e : error)
| PanicRuntime (s : string).

(** ** zapcore: levels, sinks, cores *)

Module zapcore.

(** [type Level int8]; the order of levels is the order of integers. *)
Definition Level : Type := Z.

Definition DebugLevel : Level := (-1)%Z.
Definition InfoLevel : Level := 0%Z.
Definition WarnLevel : Level := 1%Z.
Definition ErrorLevel : Level := 2%Z.
Definition DPanicLevel : Level := 3%Z.
Definition PanicLevel : Level := 4%Z.
Definition FatalLevel : Level := 5%Z.

(** The level names an encoder can print. *)
Inductive LevelEncoder : Type :=
| CapitalLevelEncoder
| CapitalColorLevelEncoder.

(** Time and duration encoders are functions of the facade
    ([timeEncoder], [milliSecondsDurationEncoder]); only their identity
    matters here. *)
Inductive TimeEncoder : Type := timeEncoder.
Inductive DurationEncoder : Type := milliSecondsDurationEncoder.
Inductive CallerEncoder : Type := ShortCallerEncoder.

Record EncoderConfig : Type := {
  TimeKey : string;
  LevelKey : string;
  NameKey : string;
  CallerKey : string;
  MessageKey : string;
  StacktraceKey : string;
  LineEnding : string;
  EncodeLevel : LevelEncoder;
  EncodeTime : TimeEncoder;
  EncodeDuration : DurationEncoder;
  EncodeCaller : CallerEncoder
}.

Definition DefaultLineEnding : string :=
  String (Ascii.ascii_of_nat 10) EmptyString.

Inductive Encoder : Type :=
| NewJSONEncoder (cfg : EncoderConfig)
| NewConsoleEncoder (cfg : EncoderConfig).

(** [lumberjack.Logger]: a rotating file writer.  Building the value
    opens nothing; the file is opened by the first write. *)
Record lumberjack_Logger : Type := {
  Filename : string;
  MaxSize : Z;
  MaxBackups : Z;
  MaxAge : Z;
  Compress : bool
}.

(** Write sinks. *)
Inductive WriteSyncer : Type :=
| Stdout
| Stderr
| File (path : string)
| AddSync (lj : lumberjack_Logger)
| CombineWriteSyncers (ws : list WriteSyncer).

(** [zapcore.Field], and the dynamically typed values ([interface{}])
    the facade receives as key-value arguments.  A value can itself be a
    field: that is the case [handleFields] guards against. *)
Inductive Value : Type :=
| VNil
| VBool (b : bool)
| VInt (n : Z)
| VString (s : string)
| VError (e : error)
| VField (f : Field)
with Field : Type :=
| Any (key : string) (value : Value).

(** Cores.  [NewCore] is an encoder, a sink and a level predicate;
    [NewTee] of two or more cores is a [multiCore]. *)
Inductive Core : Type :=
| NopCore
| NewCore (enc : Encoder) (ws : WriteSyncer) (enab : Level -> bool)
| multiCore (cs : list Core)
| NewSamplerWithOptions (c : Core) (tick_ms : Z) (first thereafter : Z)
    (hooks : list string)
| CoreWith (c : Core) (fs : list Field).

Definition NewTee (cores : list Core) : Core :=
  match cores with
  | [] => NopCore
  | [c] => c
  | _ => multiCore cores
  end.

Fixpoint Enabled (c : Core) (lvl : Level) : bool :=
  match c with
  | NopCore => false
  | NewCore _ _ enab => enab lvl
  | multiCore cs => existsb (fun c' => Enabled c' lvl) cs
  | NewSamplerWithOptions c' _ _ _ _ => Enabled c' lvl
  | CoreWith c' _ => Enabled c' lvl
  end.

(** The sinks a core writes an accepted entry to, each with the level
    predicate that guards it. *)
Fixpoint routes (c : Core) : list (WriteSyncer * (Level -> bool)) :=
  match c with
  | NopCore => []
  | NewCore _ ws enab => [(ws, enab)]
  | multiCore cs => flat_map routes cs
  | NewSamplerWithOptions c' _ _ _ _ => routes c'
  | CoreWith c' _ => routes c'
  end.

End zapcore.

Import zapcore.

(** ** zap: options, loggers, configuration *)

Module zap.

Inductive Option : Type :=
| ErrorOutput (ws : option WriteSyncer)
| Development
| AddCaller
| AddStacktrace (lvl : zapcore.Level)
| WrapCore (f : Core -> Core)
| Fields (fs : list Field)
| AddCallerSkip (skip : Z).

Record Logger : Type := {
  core : Core;
  development : bool;
  addCaller : bool;
  name : string;
  errorOutput : option WriteSyncer;
  addStack : zapcore.Level;
  callerSkip : Z
}.

Definition apply (log : Logger) (o : Option) : Logger :=
  match o with
  | ErrorOutput ws =>
      {| core := core log; development := development log;
         addCaller := addCaller log; name := name log; errorOutput := ws;
         addStack := addStack log; callerSkip := callerSkip log |}
  | Development =>
      {| core := core log; development := true;
         addCaller := addCaller log; name := name log;
         errorOutput := errorOutput log;
         addStack := addStack log; callerSkip := callerSkip log |}
  | AddCaller =>
      {| core := core log; development := development log;
         addCaller := true; name := name log;
         errorOutput := errorOutput log;
         addStack := addStack log; callerSkip := callerSkip log |}
  | AddStacktrace lvl =>
      {| core := core log; development := development log;
         addCaller := addCaller log; name := name log;
         errorOutput := errorOutput log;
         addStack := lvl; callerSkip := callerSkip log |}
  | WrapCore f =>
      {| core := f (core log); development := development log;
         addCaller := addCaller log; name := name log;
         errorOutput := errorOutput log;
         addStack := addStack log; callerSkip := callerSkip log |}
  | Fields fs =>
      {| core := CoreWith (core log) fs; development := development log;
         addCaller := addCaller log; name := name log;
         errorOutput := errorOutput log;
         addStack := addStack log; callerSkip := callerSkip log |}
  | AddCallerSkip skip =>
      {| core := core log; development := development log;
         addCaller := addCaller log; name := name log;
         errorOutput := errorOutput log;
         addStack := addStack log; callerSkip := (callerSkip log + skip)%Z |}
  end.

(** The logger [zap.New] builds: the given core, errors to standard
    error, no stack traces, then every option in order. *)
Definition New_value (c : Core) (opts : list Option) : Logger :=
  fold_left apply opts
    {| core := c; development := false; addCaller := false;
       name := EmptyString; errorOutput := Some Stderr;
       addStack := (zapcore.FatalLevel + 1)%Z; callerSkip := 0%Z |}.

Record SamplingConfig : Type := {
  Initial : Z;
  Thereafter : Z;
  Hook : option string
}.

Record Config : Type := {
  Level : zapcore.Level;
  Development_ : bool;
  DisableCaller : bool;
  DisableStacktrace : bool;
  Sampling : option SamplingConfig;
  Encoding : string;
  EncoderConfig : zapcore.EncoderConfig;
  OutputPaths : list string;
  ErrorOutputPaths : list string;
  InitialFields : gmap string Value
}.

(** What a checked entry does after it has been written. *)
Inductive CheckWriteAction : Type :=
| WriteThenNoop
| WriteThenPanic
| WriteThenFatal.

Record CheckedEntry : Type := {
  entLevel : zapcore.Level;
  entMessage : string;
  should : CheckWriteAction
}.

(** [Logger.check]: below dpanic a disabled level yields no entry; panic
    and fatal entries, and dpanic entries of a development logger, are
    always produced, with their terminal action.  The sampler's choice
    depends on the clock and is taken to let the entry through. *)
Definition check (log : Logger) (lvl : zapcore.Level) (msg : string)
  : option CheckedEntry :=
  if ((lvl <? zapcore.DPanicLevel)%Z && negb (zapcore.Enabled (core log) lvl))
  then None
  else
    let act :=
      if (lvl =? zapcore.PanicLevel)%Z then WriteThenPanic
      else if (lvl =? zapcore.FatalLevel)%Z then WriteThenFatal
      else if ((lvl =? zapcore.DPanicLevel)%Z && development log)
           then WriteThenPanic
           else WriteThenNoop in
    match act with
    | WriteThenNoop =>
        if zapcore.Enabled (core log) lvl
        then Some {| entLevel := lvl; entMessage := msg; should := act |}
        else None
    | _ => Some {| entLevel := lvl; entMessage := msg; should := act |}
    end.

End zap.

(** ** The facade's types *)

(** Modelled from the spec: the facade's level vocabulary (aliases onto
    the engine's levels) and its two format names, which other files of
    the package declare. *)
Definition Level : Type := zapcore.Level.
Definition InfoLevel : Level := zapcore.InfoLevel.
Definition WarnLevel : Level := zapcore.WarnLevel.
Definition PanicLevel : Level := zapcore.PanicLevel.
Definition jsonFormat : string := "json".
Definition consoleFormat : string := "console".

(** Modelled from the spec: the configuration struct [Options] (level
    string, format, destination lists, rotation limits, toggles), which
    another file of the package declares.  [Level_] is its field
    [Level]; [MaxBackups_] and [Compress_] are the backup count and the
    compression flag of its rotation limits. *)
Record Options : Type := {
  OutputPaths : list string;
  ErrorOutputPaths : list string;
  Level_ : string;
  Format : string;
  MaxSizeInMB : Z;
  MaxAgeInDays : Z;
  MaxBackups_ : Z;
  Compress_ : bool;
  EnableCaller : bool;
  DisableStacktrace : bool;
  EnableColor : bool;
  Development : bool
}.

Record rotationOptions : Type := {
  maxSize : Z;
  maxAge : Z;
  maxBackups : Z;
  compress : bool
}.

Definition _stdout : string := "stdout".
Definition _stderr : string := "stderr".

Definition _defaultRotateOpts : rotationOptions :=
  {| maxSize := 100; maxAge := 7; maxBackups := 0; compress := false |}.

Definition _stdouts : gset string := {[ _stdout; _stderr ]}.

(** A nil sink is [None]. *)
Record teeOption : Type := {
  w : option WriteSyncer;
  enabler : zapcore.Level -> bool
}.

Inductive noopInfoLogger : Type := mk_noopInfoLogger.

Definition disabledInfoLogger : noopInfoLogger := mk_noopInfoLogger.

Record infoLogger : Type := {
  level : zapcore.Level;
  log : zap.Logger
}.

(** [logger] embeds an [infoLogger] next to its zap logger. *)
Record logger : Type := {
  zapLogger : zap.Logger;
  embedded : infoLogger
}.

(** An [InfoLogger] interface value: one of the two implementations. *)
Inductive InfoLogger : Type :=
| live (l : infoLogger)
| noop (l : noopInfoLogger).

(** ** The world: globals and the trace of calls into the engine *)

Inductive Event : Type :=
| EvOpen (path : string)
| EvClose (path : string)
| EvNew
| EvEnabled (lvl : zapcore.Level)
| EvCheck (lvl : zapcore.Level) (msg : string)
| EvWrite (lvl : zapcore.Level) (msg : string) (fields : list Field)
| EvLog (lvl : zapcore.Level) (msg : string) (fields : list Field)
| EvKlogInit
| EvRedirectStdLog.

(** The package variables [_logger] and [_options] (both pointers, nil
    is [None]) and the calls made so far, oldest first.  The mutex [mu]
    only serialises concurrent [Init] calls; one thread is modelled. *)
Record World : Type := {
  trace : list Event;
  _logger : option logger;
  _options : option Options
}.

Inductive Outcome (A : Type) : Type :=
| Ret (a : A)
| Panicked (v : PanicValue)
| Exited (code : Z)
| OutOfFuel.

Arguments Ret {A} a.
Arguments Panicked {A} v.
Arguments Exited {A} code.
Arguments OutOfFuel {A}.

(** Computations: a state transformer that returns, panics or exits. *)
Definition M (A : Type) : Type := World -> Outcome A * World.

#[global] Instance M_ret : MRet M := fun A a s => (Ret a, s).

#[global] Instance M_bind : MBind M := fun A B f m s =>
  match m s with
  | (Ret a, s') => f a s'
  | (Panicked v, s') => (Panicked v, s')
  | (Exited c, s') => (Exited c, s')
  | (OutOfFuel, s') => (OutOfFuel, s')
  end.

Definition panic {A : Type} (v : PanicValue) : M A := fun s => (Panicked v, s).
Definition exit {A : Type} (code : Z) : M A := fun s => (Exited code, s).
Definition out_of_fuel {A : Type} : M A := fun s => (OutOfFuel, s).

Definition emit (e : Event) : M unit := fun s =>
  (Ret tt, {| trace := trace s ++ [e]; _logger := _logger s;
              _options := _options s |}).

Definition set_logger (l : logger) : M unit := fun s =>
  (Ret tt, {| trace := trace s; _logger := Some l; _options := _options s |}).

Definition set_options (o : option Options) : M unit := fun s =>
  (Ret tt, {| trace := trace s; _logger := _logger s; _options := o |}).

(** [xs[i]]: an index out of range panics. *)
Definition index {A : Type} (xs : list A) (i : nat) : M A :=
  match xs !! i with
  | Some x => mret x
  | None => panic (PanicRuntime "index out of range")
  end.

(** ** Calls into the engine *)

Definition after (act : zap.CheckWriteAction) (msg : string) : M unit :=
  match act with
  | zap.WriteThenNoop => mret tt
  | zap.WriteThenPanic => panic (PanicString msg)
  | zap.WriteThenFatal => exit 1
  end.

(** [zap.New(core, opts...)]. *)
Definition zap_New (c : Core) (opts : list zap.Option) : M zap.Logger :=
  emit EvNew ;; mret (zap.New_value c opts).

(** [log.Core().Enabled(lvl)]. *)
Definition zap_Core_Enabled (l : zap.Logger) (lvl : zapcore.Level) : M bool :=
  emit (EvEnabled lvl) ;; mret (zapcore.Enabled (zap.core l) lvl).

(** [log.Check(lvl, msg)]. *)
Definition zap_Logger_Check (l : zap.Logger) (lvl : zapcore.Level)
  (msg : string) : M (option zap.CheckedEntry) :=
  emit (EvCheck lvl msg) ;; mret (zap.check l lvl msg).

(** [ce.Write(fields...)]. *)
Definition zap_CheckedEntry_Write (ce : zap.CheckedEntry)
  (fields : list Field) : M unit :=
  emit (EvWrite (zap.entLevel ce) (zap.entMessage ce) fields) ;;
  after (zap.should ce) (zap.entMessage ce).

(** A leveled method ([log.Info], [log.DPanic], ...): one call, then
    the terminal action of the entry, if there is one. *)
Definition zap_Logger_log (l : zap.Logger) (lvl : zapcore.Level)
  (msg : string) (fields : list Field) : M unit :=
  emit (EvLog lvl msg fields) ;;
  match zap.check l lvl msg with
  | Some ce => after (zap.should ce) msg
  | None => mret tt
  end.

Definition zap_Logger_Info l := zap_Logger_log l zapcore.InfoLevel.
Definition zap_Logger_DPanic l := zap_Logger_log l zapcore.DPanicLevel.

Definition klog_InitLogger (l : zap.Logger) : M unit := emit EvKlogInit.
Definition zap_RedirectStdLog (l : zap.Logger) : M unit := emit EvRedirectStdLog.

(** What [zap.Open] returns: a sink with its close function, or an
    error (the sink and the close function are then nil). *)
Inductive OpenResult : Type :=
| Opened (ws : WriteSyncer) (closeFunc : M unit)
| OpenFailed (err : error).

(** The views' methods, as the interface [InfoLogger] lists them. *)
Class InfoLoggerMethods (T : Type) : Type := {
  Enabled : T -> bool;
  Info : T -> string -> list Field -> M unit;
  Infof : T -> string -> list Value -> M unit;
  Infow : T -> string -> list Value -> M unit
}.

(** The sink a destination name opens to. *)
Definition sink_of_path (p : string) : WriteSyncer :=
  if decide (p = "stdout") then Stdout
  else if decide (p = "stderr") then Stderr
  else File p.

(** ** The facade's functions *)

Section Package.

Set Default Proof Using "Type".

(** What the environment and the libraries decide: whether opening a
    console stream fails, how [zapcore.Level.UnmarshalText] parses a
    level name (the receiver's new value and the error), and how
    [fmt.Sprintf] renders. *)
Variable open_error : string -> option error.
Variable UnmarshalText : zapcore.Level -> string -> zapcore.Level * option error.
Variable fmt_Sprintf : string -> list Value -> string.

(** [zap.Open(p)]: the sink, its close function and the error. *)
Definition zap_Open (p : string) : M OpenResult :=
  match open_error p with
  | Some e => mret (OpenFailed e)
  | None => emit (EvOpen p) ;; mret (Opened (sink_of_path p) (emit (EvClose p)))
  end.

Definition buildEncoder (cfg : zap.Config) : zapcore.Encoder :=
  if decide (zap.Encoding cfg = jsonFormat)
  then zapcore.NewJSONEncoder (zap.EncoderConfig cfg)
  else zapcore.NewConsoleEncoder (zap.EncoderConfig cfg).

Definition buildRotationOpts (options : option Options) : rotationOptions :=
  match options with
  | None => _defaultRotateOpts
  | Some options =>
      {| maxSize := MaxSizeInMB options;
         maxAge := MaxAgeInDays options;
         maxBackups := maxBackups _defaultRotateOpts;
         compress := compress _defaultRotateOpts |}
  end.

Definition encoderConfigFromOpts (opts : Options) : zapcore.EncoderConfig :=
  let encodeLevel :=
    if (bool_decide (Format opts = consoleFormat) && EnableColor opts)
    then zapcore.CapitalColorLevelEncoder
    else zapcore.CapitalLevelEncoder in
  {| zapcore.TimeKey := "time";
     zapcore.LevelKey := "level";
     zapcore.NameKey := "logger";
     zapcore.CallerKey := "caller";
     zapcore.MessageKey := "msg";
     zapcore.StacktraceKey := "stacktrace";
     zapcore.LineEnding := zapcore.DefaultLineEnding;
     zapcore.EncodeLevel := encodeLevel;
     zapcore.EncodeTime := zapcore.timeEncoder;
     zapcore.EncodeDuration := zapcore.milliSecondsDurationEncoder;
     zapcore.EncodeCaller := zapcore.ShortCallerEncoder |}.

(** [var zapLevel zapcore.Level] starts at the zero value, which is the
    info level; [UnmarshalText] is called on it. *)
Definition zapConfigFromOpts (opts : Options) : zap.Config :=
  let encoderConfig := encoderConfigFromOpts opts in
  let zapLevel :=
    match UnmarshalText 0%Z (Level_ opts) with
    | (_, Some _) => InfoLevel
    | (parsed, None) => parsed
    end in
  {| zap.Level := zapLevel;
     zap.Development_ := Development opts;
     zap.DisableCaller := negb (EnableCaller opts);
     zap.DisableStacktrace := DisableStacktrace opts;
     zap.Sampling :=
       Some {| zap.Initial := 100; zap.Thereafter := 100; zap.Hook := None |};
     zap.Encoding := Format opts;
     zap.EncoderConfig := encoderConfig;
     zap.OutputPaths := OutputPaths opts;
     zap.ErrorOutputPaths := ErrorOutputPaths opts;
     zap.InitialFields := ∅ |}.

(** The loop of [buildWriteSyncer] over [paths], with the three slices
    it appends to. *)
Fixpoint buildWriteSyncer_loop (paths : list string) (options : rotationOptions)
  (res : list WriteSyncer) (closers : list (M unit)) (errs : list error)
  : M (list WriteSyncer * list (M unit) * list error) :=
  match paths with
  | [] => mret (res, closers, errs)
  | p :: paths' =>
      if decide (p ∈ _stdouts) then
        r ← zap_Open p;
        match r with
        | OpenFailed err =>
            buildWriteSyncer_loop paths' options res closers (errs ++ [err])
        | Opened ws closeFunc =>
            buildWriteSyncer_loop paths' options
              (res ++ [ws]) (closers ++ [closeFunc]) errs
        end
      else
        let ws := AddSync
          {| Filename := p;
             MaxSize := maxSize options;
             MaxBackups := maxBackups options;
             MaxAge := maxAge options;
             Compress := compress options |} in
        buildWriteSyncer_loop paths' options (res ++ [ws]) closers errs
  end.

Fixpoint closeAll (closers : list (M unit)) : M unit :=
  match closers with
  | [] => mret tt
  | c :: closers' => c ;; closeAll closers'
  end.

Definition buildWriteSyncer (paths : list string) (options : rotationOptions)
  : M (option WriteSyncer * option error) :=
  r ← buildWriteSyncer_loop paths options [] [] [];
  let '(res, closers, errs) := r in
  if negb (length errs =? 0)%nat then
    closeAll closers ;;
    mret (None, Some (Errorf "build rotate options has err: %+v" errs))
  else
    mret (Some (CombineWriteSyncers res), None).

Definition buildZapOptions (cfg : zap.Config) (errSink : option WriteSyncer)
  : list zap.Option :=
  let opts := [zap.ErrorOutput errSink] in
  let opts := if zap.Development_ cfg then opts ++ [zap.Development] else opts in
  let opts := if negb (zap.DisableCaller cfg) then opts ++ [zap.AddCaller] else opts in
  let stackLevel := if zap.Development_ cfg then WarnLevel else PanicLevel in
  let opts :=
    if negb (zap.DisableStacktrace cfg)
    then opts ++ [zap.AddStacktrace stackLevel] else opts in
  let opts :=
    match zap.Sampling cfg with
    | Some scfg =>
        opts ++ [zap.WrapCore (fun core =>
          let samplerOpts :=
            match zap.Hook scfg with
            | Some h => [h]
            | None => []
            end in
          NewSamplerWithOptions core 1000
            (zap.Initial scfg) (zap.Thereafter scfg) samplerOpts)]
    | None => opts
    end in
  let opts :=
    if (0 <? size (zap.InitialFields cfg))%nat then
      let keys :=
        merge_sort (fun a b => Is_true (String.leb a b))
          (map fst (map_to_list (zap.InitialFields cfg))) in
      let fs :=
        map (fun k => Any k (default VNil (zap.InitialFields cfg !! k))) keys in
      opts ++ [zap.Fields fs]
    else opts in
  opts.

(** The loop of [newTee]: slot [i] of [cores] is overwritten with the
    core of the [i]-th option. *)
Fixpoint newTee_loop (i : nat) (topts : list teeOption) (encoder : zapcore.Encoder)
  (cores : list Core) : M (list Core) :=
  match topts with
  | [] => mret cores
  | topt :: topts' =>
      match w topt with
      | None => panic (PanicString "the writer is nil")
      | Some ws =>
          let core := NewCore encoder ws (enabler topt) in
          newTee_loop (S i) topts' encoder (<[i := core]> cores)
      end
  end.

(** [make([]zapcore.Core, len(topts))] holds nil cores, written
    [NopCore] here; the loop overwrites every slot before the slice is
    read. *)
Definition newTee (topts : list teeOption) (encoder : zapcore.Encoder)
  (opts : list zap.Option) : M (logger * zap.Logger) :=
  cores ← newTee_loop 0 topts encoder (replicate (length topts) NopCore);
  zapLogger ← zap_New (NewTee cores) opts;
  let res :=
    {| zapLogger := zapLogger;
       embedded := {| log := zapLogger; level := zapcore.InfoLevel |} |} in
  mret (res, zapLogger).

Definition levelFunc (minLevel maxLevel : zapcore.Level) : zapcore.Level -> bool :=
  fun level =>
    if (maxLevel <? minLevel)%Z then false
    else if (zapcore.FatalLevel <? maxLevel)%Z then false
    else if ((level <? minLevel) || (maxLevel <? level))%Z then false
    else true.

Definition maxLevel (x y : zapcore.Level) : zapcore.Level :=
  if (x <? y)%Z then y else x.

Definition normalLogOpts (level : zapcore.Level) (opts : Options)
  (rotOpts : rotationOptions) : M teeOption :=
  r ← buildWriteSyncer (OutputPaths opts) rotOpts;
  let '(syncer, err) := r in
  match err with
  | Some e => panic (PanicError e)
  | None =>
      mret {| w := syncer; enabler := levelFunc level zapcore.WarnLevel |}
  end.

(** [Init(opts)]: [opts] is a pointer; it is stored before it is first
    dereferenced. *)
Definition Init (opts : option Options) : M unit :=
  set_options opts ;;
  match opts with
  | None => panic (PanicRuntime "nil pointer dereference")
  | Some o =>
      let zapCfg := zapConfigFromOpts o in
      let encoder := buildEncoder zapCfg in
      let rotOpts := buildRotationOpts opts in
      let baseLevel := zap.Level zapCfg in
      t ← normalLogOpts baseLevel o rotOpts;
      let teeOpts := [t] in
      r ← buildWriteSyncer (ErrorOutputPaths o) rotOpts;
      let '(errSyncer, err) := r in
      match err with
      | Some e => panic (PanicError e)
      | None =>
          let teeOpts := teeOpts ++
            [{| w := errSyncer;
                enabler := levelFunc (maxLevel baseLevel zapcore.WarnLevel)
                             zapcore.FatalLevel |}] in
          let zapOptions := buildZapOptions zapCfg errSyncer in
          let zapOptions := zapOptions ++
            [zap.AddStacktrace zapcore.PanicLevel; zap.AddCallerSkip 1] in
          r ← newTee teeOpts encoder zapOptions;
          let '(wrapperLogger, zapLogger) := r in
          set_logger wrapperLogger ;;
          klog_InitLogger zapLogger ;;
          zap_RedirectStdLog zapLogger
      end
  end.

Definition NewLogger (l : zap.Logger) : logger :=
  {| zapLogger := l;
     embedded := {| log := l; level := zapcore.InfoLevel |} |}.

(** The loop of [handleFields]: [i] is the index of the next key.  The
    loop has no bound of its own in the source; [fuel] bounds the
    number of iterations here, and [handleFields] gives it more than
    the loop can use. *)
Fixpoint handleFields_loop (fuel : nat) (l : zap.Logger) (args : list Value)
  (i : nat) (fields : list Field) : M (list Field) :=
  match fuel with
  | O => out_of_fuel
  | S fuel' =>
      if decide (i < length args)%nat then
        arg ← index args i;
        match arg with
        | VField _ =>
            zap_Logger_DPanic l "strongly-typed Zap Field passed to logr"
              [Any "zap field" arg] ;;
            mret fields
        | _ =>
            if decide (i = length args - 1)%nat then
              zap_Logger_DPanic l
                "odd number of arguments passed as key-value pairs for logging"
                [Any "ignored key" arg] ;;
              mret fields
            else
              let key := arg in
              val ← index args (i + 1);
              match key with
              | VString keyStr =>
                  handleFields_loop fuel' l args (i + 2)
                    (fields ++ [Any keyStr val])
              | _ =>
                  zap_Logger_DPanic l
                    "non-string key argument passed to logging, ignoring all later arguments"
                    [Any "invalid key" key] ;;
                  mret fields
              end
        end
      else mret fields
  end.

Definition handleFields (l : zap.Logger) (args : list Value)
  (additional : list Field) : M (list Field) :=
  if decide (length args = 0)%nat then mret additional
  else
    fields ← handleFields_loop (S (length args)) l args 0 [];
    mret (fields ++ additional).

#[export] Instance noopInfoLogger_methods : InfoLoggerMethods noopInfoLogger := {|
  Enabled := fun _ => false;
  Info := fun _ _ _ => mret tt;
  Infof := fun _ _ _ => mret tt;
  Infow := fun _ _ _ => mret tt
|}.

Definition infoLogger_Info (l : infoLogger) (msg : string)
  (fields : list Field) : M unit :=
  checkedEntry ← zap_Logger_Check (log l) (level l) msg;
  match checkedEntry with
  | Some ce => zap_CheckedEntry_Write ce fields
  | None => mret tt
  end.

Definition infoLogger_Infof (l : infoLogger) (format : string)
  (args : list Value) : M unit :=
  checkedEntry ← zap_Logger_Check (log l) (level l) (fmt_Sprintf format args);
  match checkedEntry with
  | Some ce => zap_CheckedEntry_Write ce []
  | None => mret tt
  end.

Definition infoLogger_Infow (l : infoLogger) (msg : string)
  (keysAndValues : list Value) : M unit :=
  checkedEntry ← zap_Logger_Check (log l) (level l) msg;
  match checkedEntry with
  | Some ce =>
      fields ← handleFields (log l) keysAndValues [];
      zap_CheckedEntry_Write ce fields
  | None => mret tt
  end.

#[export] Instance infoLogger_methods : InfoLoggerMethods infoLogger := {|
  Enabled := fun _ => true;
  Info := infoLogger_Info;
  Infof := infoLogger_Infof;
  Infow := infoLogger_Infow
|}.

(** A method call on an interface value goes to the implementation the
    value holds. *)
#[export] Instance InfoLogger_methods : InfoLoggerMethods InfoLogger := {|
  Enabled := fun v => match v with live l => Enabled l | noop l => Enabled l end;
  Info := fun v => match v with live l => Info l | noop l => Info l end;
  Infof := fun v => match v with live l => Infof l | noop l => Infof l end;
  Infow := fun v => match v with live l => Infow l | noop l => Infow l end
|}.

Definition logger_V (l : logger) (level : Level) : M InfoLogger :=
  en ← zap_Core_Enabled (zapLogger l) level;
  if (en : bool) then mret (live {| level := level; log := zapLogger l |})
  else mret (noop disabledInfoLogger).

(** [Write(p []byte) (n int, err error)]. *)
Definition logger_Write (l : logger) (p : list Byte.byte)
  : M (Z * option error) :=
  zap_Logger_Info (zapLogger l) (String.string_of_list_byte p) [] ;;
  mret (Z.of_nat (length p), None).

(** ** The rest of the facade: derived loggers and the package functions *)

(** [log.With(fields...)]: with no field the receiver itself, else a
    copy whose core carries the fields.  Only a value is built. *)
Definition zap_Logger_With (l : zap.Logger) (fields : list Field) : zap.Logger :=
  match fields with
  | [] => l
  | _ =>
      {| zap.core := CoreWith (zap.core l) fields;
         zap.development := zap.development l;
         zap.addCaller := zap.addCaller l;
         zap.name := zap.name l;
         zap.errorOutput := zap.errorOutput l;
         zap.addStack := zap.addStack l;
         zap.callerSkip := zap.callerSkip l |}
  end.

(** [log.Named(s)]: with an empty segment the receiver itself, else a
    copy whose name has the segment appended after a period. *)
Definition zap_Logger_Named (l : zap.Logger) (s : string) : zap.Logger :=
  if decide (s = "") then l
  else
    {| zap.core := zap.core l;
       zap.development := zap.development l;
       zap.addCaller := zap.addCaller l;
       zap.name :=
         if decide (zap.name l = "") then s
         else (zap.name l ++ "." ++ s)%string;
       zap.errorOutput := zap.errorOutput l;
       zap.addStack := zap.addStack l;
       zap.callerSkip := zap.callerSkip l |}.

Definition logger_WithName (l : logger) (name : string) : logger :=
  let newLogger := zap_Logger_Named (zapLogger l) name in
  NewLogger newLogger.

Definition logger_WithValues (l : logger) (keysAndValues : list Value)
  : M logger :=
  fields ← handleFields (zapLogger l) keysAndValues [];
  let newLogger := zap_Logger_With (zapLogger l) fields in
  mret (NewLogger newLogger).

Definition logger_WithFields (l : logger) (fields : list Field) : logger :=
  let newLogger := zap_Logger_With (zapLogger l) fields in
  NewLogger newLogger.

(** The methods [logger] has by embedding [infoLogger]. *)
Definition logger_Info (l : logger) (msg : string) (fields : list Field)
  : M unit :=
  infoLogger_Info (embedded l) msg fields.

Definition logger_Infow (l : logger) (msg : string)
  (keysAndValues : list Value) : M unit :=
  infoLogger_Infow (embedded l) msg keysAndValues.

(** The package variable [_logger], dereferenced: nil panics. *)
Definition the_logger : M logger := fun s =>
  match _logger s with
  | Some l => (Ret l, s)
  | None => (Panicked (PanicRuntime "nil pointer dereference"), s)
  end.

Definition V (level : Level) : M InfoLogger :=
  l ← the_logger; logger_V l level.

Definition WithValues (keysAndValues : list Value) : M logger :=
  l ← the_logger; logger_WithValues l keysAndValues.

Definition WithName (s : string) : M logger :=
  l ← the_logger; mret (logger_WithName l s).

Definition ZapLogger : M zap.Logger :=
  l ← the_logger; mret (zapLogger l).


Definition GetOptions : M (option Options) := fun s => (Ret (_options s), s).

(** ** What the specification says of a key-value list *)

(** The field a well-formed pair becomes. *)
Definition pair_field (kv : string * Value) : Field := Any kv.1 kv.2.

(** The arguments a list of pairs stands for: key, value, key, ... *)
Definition flatten_pairs (kvs : list (string * Value)) : list Value :=
  flat_map (fun kv => [VString kv.1; kv.2]) kvs.

(** Key positions are the even indices. *)
Fixpoint keys (args : list Value) : list Value :=
  match args with
  | [] => []
  | k :: rest =>
      k :: match rest with
           | [] => []
           | _ :: rest' => keys rest'
           end
  end.

Definition is_string (v : Value) : bool :=
  match v with VString _ => true | _ => false end.

Definition is_field (v : Value) : bool :=
  match v with VField _ => true | _ => false end.

(** A list is well-formed when its length is even, every key position
    holds a string and no key position holds a pre-typed field. *)
Definition wellFormed (args : list Value) : bool :=
  Nat.even (length args)
  && forallb is_string (keys args)
  && forallb (fun v => negb (is_field v)) (keys args).

(** A list is malformed when its length is odd, or a key position holds
    a value that is neither a string nor a field, or a key position
    holds a pre-typed field. *)
Definition malformed (args : list Value) : bool :=
  Nat.odd (length args)
  || existsb (fun v => negb (is_string v) && negb (is_field v)) (keys args)
  || existsb is_field (keys args).

(** The pairs of the longest well-formed prefix, in input order. *)
Fixpoint wellFormedPrefix (args : list Value) : list (string * Value) :=
  match args with
  | VString k :: v :: rest => (k, v) :: wellFormedPrefix rest
  | _ => []
  end.

(** The first offence of a list, read from its head: the diagnostic
    message, and the key and value of the field logged with it. *)
Fixpoint offence (args : list Value) : option (string * string * Value) :=
  match args with
  | [] => None
  | VField f :: _ =>
      Some ("strongly-typed Zap Field passed to logr", "zap field", VField f)
  | [v] =>
      Some ("odd number of arguments passed as key-value pairs for logging",
            "ignored key", v)
  | VString _ :: _ :: rest => offence rest
  | v :: _ :: _ =>
      Some ("non-string key argument passed to logging, ignoring all later arguments",
            "invalid key", v)
  end.

(** The world after one more call into the engine. *)
Definition logged (s : World) (e : Event) : World :=
  {| trace := trace s ++ [e]; _logger := _logger s; _options := _options s |}.

Definition logged_all (s : World) (es : list Event) : World :=
  {| trace := trace s ++ es; _logger := _logger s; _options := _options s |}.

(** A tee option whose sink is nil, and the core of one whose sink is
    not. *)
Definition nil_sink (t : teeOption) : bool :=
  match w t with
  | None => true
  | Some _ => false
  end.

Definition core_of (encoder : zapcore.Encoder) (t : teeOption) : option Core :=
  match w t with
  | Some ws => Some (NewCore encoder ws (enabler t))
  | None => None
  end.

Definition tee_cores (encoder : zapcore.Encoder) (topts : list teeOption)
  : list Core :=
  omap (core_of encoder) topts.

(** The sink [buildWriteSyncer] makes of one destination. *)
Definition path_sink (options : rotationOptions) (p : string) : WriteSyncer :=
  if decide (p = "stdout") then Stdout
  else if decide (p = "stderr") then Stderr
  else AddSync {| Filename := p; MaxSize := maxSize options;
                  MaxBackups := maxBackups options; MaxAge := maxAge options;
                  Compress := compress options |}.

(** What [buildWriteSyncer] meets along [paths]: the error of each
    console stream that fails to open, the console streams that open,
    and the sinks of the destinations that did not fail. *)
Definition attempt (p : string) : option error :=
  if decide (p ∈ _stdouts) then open_error p else None.

Definition open_failures (paths : list string) : list error :=
  omap attempt paths.

Definition opened (paths : list string) : list string :=
  omap (fun p =>
          if decide (p ∈ _stdouts) then
            match open_error p with
            | None => Some p
            | Some _ => None
            end
          else None) paths.

Definition built (options : rotationOptions) (paths : list string)
  : list WriteSyncer :=
  omap (fun p =>
          match attempt p with
          | Some _ => None
          | None => Some (path_sink options p)
          end) paths.

(** ** Sample values

    An environment and inputs on which the functions are run: every
    console stream opens, or standard error does not; level names are
    parsed in zapcore's manner (lower or upper case, the empty string
    for info); [Sprintf] returns its format. *)

Definition streams_open : string -> option error := fun _ => None.

Definition stderr_closed : string -> option error := fun p =>
  if decide (p = "stderr") then Some (Err "open stderr: bad file descriptor")
  else None.

Definition level_names : list (string * zapcore.Level) :=
  [ ("debug", zapcore.DebugLevel); ("DEBUG", zapcore.DebugLevel);
    ("info", zapcore.InfoLevel); ("INFO", zapcore.InfoLevel);
    ("", zapcore.InfoLevel);
    ("warn", zapcore.WarnLevel); ("WARN", zapcore.WarnLevel);
    ("error", zapcore.ErrorLevel); ("ERROR", zapcore.ErrorLevel);
    ("dpanic", zapcore.DPanicLevel); ("DPANIC", zapcore.DPanicLevel);
    ("panic", zapcore.PanicLevel); ("PANIC", zapcore.PanicLevel);
    ("fatal", zapcore.FatalLevel); ("FATAL", zapcore.FatalLevel) ].

Fixpoint level_named (names : list (string * zapcore.Level)) (text : string)
  : option zapcore.Level :=
  match names with
  | [] => None
  | (n, lvl) :: names' =>
      if String.eqb n text then Some lvl else level_named names' text
  end.

Definition to_lower_ascii (c : Ascii.ascii) : Ascii.ascii :=
  let n := Ascii.nat_of_ascii c in
  if ((65 <=? n) && (n <=? 90))%nat then Ascii.ascii_of_nat (n + 32) else c.

Fixpoint to_lower (text : string) : string :=
  match text with
  | EmptyString => EmptyString
  | String c text' => String (to_lower_ascii c) (to_lower text')
  end.

Definition parse_level (l : zapcore.Level) (text : string)
  : zapcore.Level * option error :=
  match level_named level_names text with
  | Some lvl => (lvl, None)
  | None =>
      match level_named level_names (to_lower text) with
      | Some lvl => (lvl, None)
      | None => (l, Some (Err "unrecognized level"))
      end
  end.

Definition format_only : string -> list Value -> string := fun format _ => format.

(** Modelled from the spec: the defaults of [NewOptions()] (level info,
    console format, standard output and standard error, caller and
    stack trace on, colour off, rotation 100 MB, 7 days, no backups, no
    compression), which another file of the package defines. *)
Definition NewOptions : Options :=
  {| OutputPaths := ["stdout"];
     ErrorOutputPaths := ["stderr"];
     Level_ := "info";
     Format := consoleFormat;
     MaxSizeInMB := 100;
     MaxAgeInDays := 7;
     MaxBackups_ := 0;
     Compress_ := false;
     EnableCaller := true;
     DisableStacktrace := false;
     EnableColor := false;
     Development := false |}.

Definition options_with_level (name : string) : Options :=
  {| OutputPaths := OutputPaths NewOptions;
     ErrorOutputPaths := ErrorOutputPaths NewOptions;
     Level_ := name;
     Format := Format NewOptions;
     MaxSizeInMB := MaxSizeInMB NewOptions;
     MaxAgeInDays := MaxAgeInDays NewOptions;
     MaxBackups_ := 5;
     Compress_ := true;
     EnableCaller := EnableCaller NewOptions;
     DisableStacktrace := DisableStacktrace NewOptions;
     EnableColor := EnableColor NewOptions;
     Development := Development NewOptions |}.

Definition empty_world : World :=
  {| trace := []; _logger := None; _options := None |}.

(** A production logger writing warnings and above to standard error. *)
Definition stderr_logger : zap.Logger :=
  zap.New_value
    (NewCore (NewConsoleEncoder (encoderConfigFromOpts NewOptions)) Stderr
       (levelFunc zapcore.WarnLevel zapcore.FatalLevel))
    [].

Definition development_logger : zap.Logger :=
  zap.New_value (zap.core stderr_logger) [zap.Development].

(** Argument lists: a trailing unmatched key, a key that is a number, a
    key that is a field, and two well-formed pairs. *)
Definition odd_args : list Value :=
  [VString "elapsedMs"; VInt 120; VString "op"].

Definition numeric_key_args : list Value :=
  [VString "a"; VInt 1; VInt 2; VInt 3; VString "b"; VInt 4].

Definition field_key_args : list Value :=
  [VString "a"; VInt 1; VField (Any "k" VNil); VInt 3].

Definition paired_args : list Value :=
  [VString "a"; VInt 1; VString "b"; VField (Any "k" VNil)].

(** Options that write to standard error and to files, and a
    configuration with two initial fields. *)
Definition file_options : Options :=
  {| OutputPaths := ["stderr"; "/var/log/app.log"];
     ErrorOutputPaths := ["/var/log/app.err.log"];
     Level_ := "debug";
     Format := jsonFormat;
     MaxSizeInMB := 20;
     MaxAgeInDays := 3;
     MaxBackups_ := 5;
     Compress_ := true;
     EnableCaller := false;
     DisableStacktrace := true;
     EnableColor := true;
     Development := true |}.

Definition fields_config : zap.Config :=
  {| zap.Level := zapcore.InfoLevel;
     zap.Development_ := false;
     zap.DisableCaller := true;
     zap.DisableStacktrace := true;
     zap.Sampling := None;
     zap.Encoding := jsonFormat;
     zap.EncoderConfig := encoderConfigFromOpts NewOptions;
     zap.OutputPaths := [];
     zap.ErrorOutputPaths := [];
     zap.InitialFields :=
       {[ "zone" := VString "eu"; "app" := VString "api" ]} |}.


Definition info_view : infoLogger :=
  {| level := zapcore.InfoLevel; log := stderr_logger |}.


(** ** Readings of values and traces used by the further theorems *)

(** The entries handed to the cores by [ce.Write], oldest first. *)
Definition entries (tr : list Event)
  : list (zapcore.Level * string * list Field) :=
  omap (fun e =>
          match e with
          | EvWrite lvl msg fields => Some (lvl, msg, fields)
          | _ => None
          end) tr.


(** The fields a core attaches to every entry, outermost last. *)
Fixpoint context_fields (c : Core) : list Field :=
  match c with
  | CoreWith c' fs => context_fields c' ++ fs
  | NewSamplerWithOptions c' _ _ _ _ => context_fields c'
  | _ => []
  end.

(** The rotating file writers below a sink. *)
Fixpoint file_sinks (ws : WriteSyncer) : list lumberjack_Logger :=
  match ws with
  | AddSync lj => [lj]
  | CombineWriteSyncers wss => flat_map file_sinks wss
  | _ => []
  end.

Definition encoder_config (enc : zapcore.Encoder) : zapcore.EncoderConfig :=
  match enc with
  | NewJSONEncoder cfg => cfg
  | NewConsoleEncoder cfg => cfg
  end.

Definition is_json (enc : zapcore.Encoder) : bool :=
  match enc with
  | NewJSONEncoder _ => true
  | NewConsoleEncoder _ => false
  end.



(** An option that leaves the logger's core as it is. *)
Definition keeps_core (o : zap.Option) : bool :=
  match o with
  | zap.WrapCore _ => false
  | _ => true
  end.

(** The sink and predicate of a tee option whose sink is not nil. *)
Definition route_of (t : teeOption)
  : option (WriteSyncer * (zapcore.Level -> bool)) :=
  match w t with
  | Some ws => Some (ws, enabler t)
  | None => None
  end.

(** The cached view of a logger is bound to the info level and to the
    logger's own zap logger. *)
Definition cached_view_ok (l : logger) : Prop :=
  log (embedded l) = zapLogger l /\ level (embedded l) = zapcore.InfoLevel.

(** The logger a successful [Init opts] stores. *)
Definition Init_logger (opts : Options) : logger :=
  let zapCfg := zapConfigFromOpts opts in
  let rotOpts := buildRotationOpts (Some opts) in
  let out := CombineWriteSyncers (map (path_sink rotOpts) (OutputPaths opts)) in
  let errOut :=
    CombineWriteSyncers (map (path_sink rotOpts) (ErrorOutputPaths opts)) in
  NewLogger
    (zap.New_value
       (NewTee
          [ NewCore (buildEncoder zapCfg) out
              (levelFunc (zap.Level zapCfg) zapcore.WarnLevel);
            NewCore (buildEncoder zapCfg) errOut
              (levelFunc (maxLevel (zap.Level zapCfg) zapcore.WarnLevel)
                 zapcore.FatalLevel) ])
       (buildZapOptions zapCfg (Some errOut) ++
        [zap.AddStacktrace zapcore.PanicLevel; zap.AddCallerSkip 1])).

(** ** Theorems *)

(** Unfolds the monad's operations and computes. *)
Ltac run_M :=
  repeat (unfold mbind, mret, M_bind, M_ret, emit, panic, exit, after; cbn).

Lemma pairs_ind (P : list Value -> Prop) :
  P [] -> (forall v, P [v]) ->
  (forall a b rest, P rest -> P (a :: b :: rest)) ->
  forall l, P l.
Proof.
  intros H0 H1 H2 l.
  assert (H : P l /\ forall a, P (a :: l)); [| apply H].
  induction l as [| x l [IH1 IH2]]; split; auto.
Qed.

(** A dpanic call of a logger that is not in development mode is one
    recorded call and returns. *)
Lemma DPanic_production (l : zap.Logger) (msg : string) (fs : list Field) (s : World) :
  zap.development l = false ->
  zap_Logger_DPanic l msg fs s =
    (Ret tt, logged s (EvLog zapcore.DPanicLevel msg fs)).
Proof.
  intros Hdev. unfold zap_Logger_DPanic, zap_Logger_log, zap.check.
  rewrite Hdev. cbn.
  destruct (zapcore.Enabled (zap.core l) zapcore.DPanicLevel); reflexivity.
Qed.

(** A dpanic call of a development logger is recorded and panics. *)
Lemma DPanic_development (l : zap.Logger) (msg : string) (fs : list Field) (s : World) :
  zap.development l = true ->
  zap_Logger_DPanic l msg fs s =
    (Panicked (PanicString msg), logged s (EvLog zapcore.DPanicLevel msg fs)).
Proof.
  intros Hdev. unfold zap_Logger_DPanic, zap_Logger_log, zap.check.
  rewrite Hdev. reflexivity.
Qed.

(** The loop, from index [i] on, against the list read from its head:
    with enough fuel it makes the one call of the first offence, if
    there is one, and returns the fields of the pairs before it. *)
Lemma handleFields_loop_run (l : zap.Logger) (args : list Value) (fuel : nat) :
  forall (i : nat) (fields : list Field) (s : World),
  (length (drop i args) < 2 * fuel)%nat ->
  handleFields_loop fuel l args i fields s =
    match offence (drop i args) with
    | None =>
        (Ret (fields ++ map pair_field (wellFormedPrefix (drop i args))), s)
    | Some (msg, k, v) =>
        (zap_Logger_DPanic l msg [Any k v] ;;
         mret (fields ++ map pair_field (wellFormedPrefix (drop i args)))) s
    end.
Proof.
  induction fuel as [| fuel IH]; intros i fields s Hfuel; [lia |].
  cbn [handleFields_loop].
  destruct (drop i args) as [| v tl] eqn:Hdrop.
  - assert (length args <= i)%nat.
    { apply (f_equal length) in Hdrop. rewrite length_drop in Hdrop. simpl in Hdrop. lia. }
    destruct (decide (i < length args)%nat); [lia |].
    run_M. rewrite app_nil_r. reflexivity.
  - assert (Hlen : (length args - i = S (length tl))%nat).
    { apply (f_equal length) in Hdrop. rewrite length_drop in Hdrop. exact Hdrop. }
    assert (Hi : args !! i = Some v).
    { rewrite <- (Nat.add_0_r i), <- lookup_drop, Hdrop. reflexivity. }
    assert (Htl : drop (S i) args = tl).
    { rewrite (drop_S _ _ _ Hi) in Hdrop. congruence. }
    destruct (decide (i < length args)%nat); [| lia].
    unfold index. rewrite Hi.
    destruct tl as [| v' tl'].
    + (* the last element *)
      assert (i = length args - 1)%nat by (simpl in Hlen; lia).
      destruct v; cbn; destruct (decide (i = length args - 1)%nat);
        try lia; rewrite ?app_nil_r; reflexivity.
    + assert (Hi1 : args !! (i + 1)%nat = Some v').
      { rewrite <- lookup_drop, Hdrop. reflexivity. }
      assert (Htl' : drop (i + 2) args = tl').
      { replace (i + 2)%nat with (S (S i)) by lia.
        rewrite Nat.add_1_r in Hi1.
        rewrite (drop_S _ _ _ Hi1) in Htl. congruence. }
      assert (i <> length args - 1)%nat by (simpl in Hlen; lia).
      destruct v; cbn; destruct (decide (i = length args - 1)%nat);
        try lia; rewrite ?Hi1; cbn; rewrite ?app_nil_r;
        try reflexivity.
      (* a string key: one more iteration *)
      change (handleFields_loop fuel l args (i + 2)
                (fields ++ [Any s0 v']) s = 
              match offence tl' with
              | Some (msg, k, v) =>
                  (zap_Logger_DPanic l msg [Any k v] ;;
                   mret (fields ++ pair_field (s0, v')
                           :: map pair_field (wellFormedPrefix tl'))) s
              | None =>
                  (Ret (fields ++ pair_field (s0, v')
                          :: map pair_field (wellFormedPrefix tl')), s)
              end).
      rewrite IH by (rewrite Htl'; simpl in Hfuel; lia).
      rewrite Htl'. rewrite <- !app_assoc. reflexivity.
Qed.

Lemma malformed_offence (args : list Value) :
  malformed args = true -> exists msg key v, offence args = Some (msg, key, v).
Proof.
  induction args as [| v | a b rest IH] using pairs_ind; intros H.
  - discriminate.
  - destruct v; cbn; eauto.
  - destruct a; cbn; try (do 3 eexists; reflexivity).
    apply IH. unfold malformed in *. cbn in H. rewrite ?Nat.odd_succ_succ in H.
    exact H.
Qed.

Lemma wellFormed_offence (args : list Value) :
  wellFormed args = true -> offence args = None.
Proof.
  induction args as [| v | a b rest IH] using pairs_ind; intros H.
  - reflexivity.
  - discriminate.
  - unfold wellFormed in *. cbn in H. rewrite ?Nat.even_succ_succ in H.
    destruct a; cbn in H; rewrite ?andb_false_r in H; try discriminate.
    cbn. apply IH. exact H.
Qed.

(** Where the first offence sits: the pairs before it are the list up
    to it, the value logged is the argument at that key position, and
    that argument is not a string or is the last one. *)
Lemma offence_position (args : list Value) (msg key : string) (v : Value) :
  offence args = Some (msg, key, v) ->
  flatten_pairs (wellFormedPrefix args)
    = take (2 * length (wellFormedPrefix args)) args
  /\ args !! (2 * length (wellFormedPrefix args))%nat = Some v
  /\ (is_string v = false
      \/ length args = S (2 * length (wellFormedPrefix args))).
Proof.
  induction args as [| x | a b rest IH] using pairs_ind; intros H.
  - discriminate.
  - destruct x; cbn in H; inversion H; subst; cbn; auto.
  - destruct a; cbn in H; try solve [inversion H; subst; cbn; auto].
    destruct (IH H) as (E1 & E2 & E3). cbn [wellFormedPrefix length].
    replace (2 * S (length (wellFormedPrefix rest)))%nat
      with (S (S (2 * length (wellFormedPrefix rest)))) by lia.
    cbn [take lookup list_lookup]. repeat split.
    + unfold flatten_pairs in *. cbn. rewrite E1. reflexivity.
    + exact E2.
    + destruct E3 as [E3 | E3]; [left; exact E3 | right; cbn; lia].
Qed.

Lemma no_offence_flatten (args : list Value) :
  offence args = None -> flatten_pairs (wellFormedPrefix args) = args.
Proof.
  induction args as [| x | a b rest IH] using pairs_ind; intros H.
  - reflexivity.
  - destruct x; discriminate.
  - destruct a; cbn in H; try discriminate.
    unfold flatten_pairs in *. cbn. rewrite (IH H). reflexivity.
Qed.

(** Every list of pairs whose arguments open [args] is no longer than
    [wellFormedPrefix args]: that prefix is the longest. *)
Lemma wellFormedPrefix_longest (kvs : list (string * Value)) :
  forall args : list Value,
  flatten_pairs kvs `prefix_of` args ->
  kvs `prefix_of` wellFormedPrefix args.
Proof.
  induction kvs as [| [k v] kvs IH]; intros args [tl E].
  - apply prefix_nil.
  - unfold flatten_pairs in E. cbn in E. subst args. cbn.
    apply prefix_cons, IH. exists tl. reflexivity.
Qed.

(** The result of [handleFields] on a non-empty list, by its first
    offence. *)
Lemma handleFields_run (l : zap.Logger) (args : list Value)
  (additional : list Field) (s : World) :
  handleFields l args additional s =
    match offence args with
    | None => (Ret (map pair_field (wellFormedPrefix args) ++ additional), s)
    | Some (msg, k, v) =>
        (zap_Logger_DPanic l msg [Any k v] ;;
         mret (map pair_field (wellFormedPrefix args) ++ additional)) s
    end.
Proof.
  unfold handleFields. destruct (decide (length args = 0)%nat) as [E | E].
  - destruct args; [reflexivity | discriminate].
  - unfold mbind at 1. unfold M_bind.
    rewrite handleFields_loop_run by (rewrite drop_0; lia).
    rewrite drop_0. destruct (offence args) as [[[msg k] v] |]; [| reflexivity].
    unfold mbind, M_bind.
    destruct (zap_Logger_DPanic l msg [Any k v] s) as [[| | |] s']; reflexivity.
Qed.

(** [handleFields] always comes back: the fuel it gives its loop is
    never used up. *)
Lemma handleFields_total (l : zap.Logger) (args : list Value)
  (additional : list Field) (s : World) :
  (handleFields l args additional s).1 <> OutOfFuel.
Proof.
  rewrite handleFields_run.
  destruct (offence args) as [[[msg k] v] |]; [| discriminate].
  unfold mbind, M_bind. destruct (zap.development l) eqn:Hdev.
  - rewrite DPanic_development by exact Hdev. discriminate.
  - rewrite DPanic_production by exact Hdev. discriminate.
Qed.

(** X24.  With a development logger the diagnostic call of a malformed
    list panics with the diagnostic message, and the panic reaches the
    caller of [handleFields]; the call is the only one made. *)
Lemma handleFields_malformed_development (l : zap.Logger) (args : list Value)
  (additional : list Field) (s : World) :
  malformed args = true ->
  zap.development l = true ->
  exists (msg key : string) (v : Value),
    handleFields l args additional s =
      (Panicked (PanicString msg),
       logged s (EvLog zapcore.DPanicLevel msg [Any key v])).
Proof.
  intros Hbad Hdev.
  destruct (malformed_offence args Hbad) as (msg & key & v & Hoff).
  exists msg, key, v. rewrite handleFields_run, Hoff.
  unfold mbind, M_bind. rewrite DPanic_development by exact Hdev. reflexivity.
Qed.

(** C1.  On a malformed argument list (odd length, or a key position
    holding a non-string value or a pre-typed field), with a logger
    that is not in development mode, [handleFields] returns, without
    panicking, the fields of the pairs before the first offending key
    position, in input order, followed by the additional fields; it
    makes exactly one call into the engine, a dpanic log carrying the
    offending argument; everything from that position on is dropped. *)
Theorem handleFields_malformed (l : zap.Logger) (args : list Value)
  (additional : list Field) (s : World) :
  malformed args = true ->
  zap.development l = false ->
  exists (kvs : list (string * Value)) (msg key : string) (v : Value),
    flatten_pairs kvs = take (2 * length kvs) args
    /\ args !! (2 * length kvs)%nat = Some v
    /\ (is_string v = false \/ length args = S (2 * length kvs))
    /\ handleFields l args additional s =
         (Ret (map pair_field kvs ++ additional),
          logged s (EvLog zapcore.DPanicLevel msg [Any key v])).
Proof.
  intros Hbad Hdev.
  destruct (malformed_offence args Hbad) as (msg & key & v & Hoff).
  destruct (offence_position args msg key v Hoff) as (E1 & E2 & E3).
  exists (wellFormedPrefix args), msg, key, v. repeat split; auto.
  rewrite handleFields_run, Hoff.
  unfold mbind, M_bind. rewrite DPanic_production by exact Hdev. reflexivity.
Qed.

(** C6.  [handleFields] on an empty argument list returns the
    additional fields as they are; on a well-formed list, the list of
    some pairs [kvs], it returns the fields of [kvs] in input order
    followed by the additional fields, and calls nothing. *)
Theorem handleFields_wellFormed (l : zap.Logger) (args : list Value)
  (additional : list Field) (s : World) :
  handleFields l [] additional s = (Ret additional, s)
  /\ (wellFormed args = true ->
      exists kvs : list (string * Value),
        args = flatten_pairs kvs
        /\ handleFields l args additional s =
             (Ret (map pair_field kvs ++ additional), s)).
Proof.
  split; [reflexivity |].
  intros Hwf. pose proof (wellFormed_offence args Hwf) as Hoff.
  exists (wellFormedPrefix args). split.
  - symmetry. apply no_offence_flatten, Hoff.
  - rewrite handleFields_run, Hoff. reflexivity.
Qed.

Lemma levelFunc_true_iff (minL maxL L : zapcore.Level) :
  levelFunc minL maxL L = true <->
    (minL <= maxL)%Z /\ (maxL <= zapcore.FatalLevel)%Z /\ (minL <= L <= maxL)%Z.
Proof.
  unfold levelFunc, zapcore.FatalLevel.
  destruct (Z.ltb_spec maxL minL); [split; [discriminate | lia] |].
  destruct (Z.ltb_spec 5 maxL); [split; [discriminate | lia] |].
  destruct (Z.ltb_spec L minL); simpl; [split; [discriminate | lia] |].
  destruct (Z.ltb_spec maxL L); split; try discriminate; try lia; auto.
Qed.

(** C2.  The predicate built by [levelFunc minLevel maxLevel] accepts a
    level [L] exactly when [minLevel <= maxLevel], [maxLevel] is at most
    the fatal level, and [minLevel <= L <= maxLevel]; when the range is
    inverted or reaches past fatal it rejects every level. *)
Theorem levelFunc_spec (minL maxL L : zapcore.Level) :
  (levelFunc minL maxL L = true <->
     (minL <= maxL)%Z /\ (maxL <= zapcore.FatalLevel)%Z /\ (minL <= L <= maxL)%Z)
  /\ (((maxL < minL)%Z \/ (zapcore.FatalLevel < maxL)%Z) ->
      forall L' : zapcore.Level, levelFunc minL maxL L' = false).
Proof.
  split; [apply levelFunc_true_iff |].
  intros Hbad L'. destruct (levelFunc minL maxL L') eqn:E; [| reflexivity].
  apply levelFunc_true_iff in E. lia.
Qed.

(** An info-level log call is one recorded call and returns, whatever
    the core enables. *)
Lemma Info_returns (l : zap.Logger) (msg : string) (fs : list Field) (s : World) :
  zap_Logger_Info l msg fs s = (Ret tt, logged s (EvLog zapcore.InfoLevel msg fs)).
Proof.
  unfold zap_Logger_Info, zap_Logger_log, zap.check. run_M.
  destruct (zapcore.Enabled (zap.core l) zapcore.InfoLevel); reflexivity.
Qed.

(** C5.  [V(v)] asks the backend core once whether [v] is enabled, and
    by the answer returns a live view bound to [v] and to the logger's
    backend, or the disabled view.  The live view reports enabled, the
    disabled view reports disabled, and [Info], [Infof] and [Infow] of
    the disabled view return with the world as it was. *)
Theorem V_spec (l : logger) (v : Level) (s : World) :
  logger_V l v s =
    (Ret (if zapcore.Enabled (zap.core (zapLogger l)) v
          then live {| level := v; log := zapLogger l |}
          else noop disabledInfoLogger),
     logged s (EvEnabled v))
  /\ Enabled (live {| level := v; log := zapLogger l |}) = true
  /\ Enabled (noop disabledInfoLogger) = false
  /\ forall (msg : string) (fields : list Field) (args : list Value) (s' : World),
       Info (noop disabledInfoLogger) msg fields s' = (Ret tt, s')
       /\ Infof (noop disabledInfoLogger) msg args s' = (Ret tt, s')
       /\ Infow (noop disabledInfoLogger) msg args s' = (Ret tt, s').
Proof.
  repeat split.
  unfold logger_V, zap_Core_Enabled. run_M.
  destruct (zapcore.Enabled (zap.core (zapLogger l)) v); reflexivity.
Qed.

(** C9.  [Write(p)] makes one info-level log call whose message is the
    bytes of [p] and which carries no fields, and returns [(len(p), nil)],
    for every logger: whether or not its core enables the info level. *)
Theorem Write_spec (l : logger) (p : list Byte.byte) (s : World) :
  logger_Write l p s =
    (Ret (Z.of_nat (length p), None),
     logged s (EvLog zapcore.InfoLevel (String.string_of_list_byte p) []))
  /\ String.list_byte_of_string (String.string_of_list_byte p) = p.
Proof.
  split.
  - unfold logger_Write. unfold mbind, M_bind. rewrite Info_returns. reflexivity.
  - apply String.list_byte_of_string_of_list_byte.
Qed.

(** The loop of [newTee] once [done] holds the cores built so far. *)
Lemma newTee_loop_run (encoder : zapcore.Encoder) (topts : list teeOption) :
  forall (done : list Core) (s : World),
  newTee_loop (length done) topts encoder
      (done ++ replicate (length topts) NopCore) s =
    if existsb nil_sink topts
    then (Panicked (PanicString "the writer is nil"), s)
    else (Ret (done ++ tee_cores encoder topts), s).
Proof.
  induction topts as [| t topts IH]; intros done s.
  - cbn. rewrite app_nil_r. reflexivity.
  - cbn [newTee_loop existsb]. unfold nil_sink at 1, tee_cores.
    cbn [omap list_omap]. unfold core_of at 1.
    destruct (w t) as [ws |]; [| reflexivity].
    cbn [orb length replicate].
    rewrite insert_app_r_alt by lia. rewrite Nat.sub_diag. cbn [insert list_insert].
    replace (S (length done)) with (length (done ++ [NewCore encoder ws (enabler t)]))
      by (rewrite length_app; cbn; lia).
    pose proof (IH (done ++ [NewCore encoder ws (enabler t)]) s) as IH'.
    rewrite <- !app_assoc in IH'. cbn [app] in IH'. rewrite IH'.
    destruct (existsb nil_sink topts); reflexivity.
Qed.

Lemma newTee_run (topts : list teeOption) (encoder : zapcore.Encoder)
  (opts : list zap.Option) (s : World) :
  newTee topts encoder opts s =
    if existsb nil_sink topts
    then (Panicked (PanicString "the writer is nil"), s)
    else
      let z := zap.New_value (NewTee (tee_cores encoder topts)) opts in
      (Ret ({| zapLogger := z;
               embedded := {| level := zapcore.InfoLevel; log := z |} |}, z),
       logged s EvNew).
Proof.
  unfold newTee. unfold mbind at 1. unfold M_bind.
  pose proof (newTee_loop_run encoder topts [] s) as Hloop.
  cbn [length app] in Hloop. rewrite Hloop.
  destruct (existsb nil_sink topts); reflexivity.
Qed.

Lemma nil_sink_Exists (topts : list teeOption) :
  existsb nil_sink topts = true <-> Exists (fun t => w t = None) topts.
Proof.
  induction topts as [| t topts IH]; cbn.
  - split; [discriminate | intros H; inversion H].
  - rewrite Exists_cons, orb_true_iff, IH. unfold nil_sink.
    destruct (w t); split; intros [H | H]; auto; discriminate.
Qed.

Lemma nil_sink_Forall (topts : list teeOption) :
  existsb nil_sink topts = false <-> Forall (fun t => w t <> None) topts.
Proof.
  rewrite Forall_Exists_neg, <- nil_sink_Exists.
  destruct (existsb nil_sink topts); split; congruence.
Qed.

(** C8.  If some tee option has a nil sink, [newTee] panics with the
    world as it was: no logger has been built.  If none has, it builds
    one zap logger, over the tee of the options' cores, and returns it
    with a facade logger on that same zap logger, whose cached view is
    bound to the info level and to that same zap logger. *)
Theorem newTee_spec (topts : list teeOption) (encoder : zapcore.Encoder)
  (opts : list zap.Option) (s : World) :
  (Exists (fun t => w t = None) topts ->
     newTee topts encoder opts s =
       (Panicked (PanicString "the writer is nil"), s))
  /\ (Forall (fun t => w t <> None) topts ->
      exists (lg : logger) (z : zap.Logger),
        newTee topts encoder opts s = (Ret (lg, z), logged s EvNew)
        /\ z = zap.New_value (NewTee (tee_cores encoder topts)) opts
        /\ length (tee_cores encoder topts) = length topts
        /\ zapLogger lg = z
        /\ log (embedded lg) = z
        /\ level (embedded lg) = zapcore.InfoLevel).
Proof.
  rewrite newTee_run. split.
  - intros Hnil. apply nil_sink_Exists in Hnil. rewrite Hnil. reflexivity.
  - intros Hall. pose proof Hall as Hb. apply nil_sink_Forall in Hb. rewrite Hb.
    do 2 eexists. split; [reflexivity |]. repeat split.
    unfold tee_cores. induction Hall as [| t topts Ht Hall IH]; [reflexivity |].
    cbn in Hb. apply orb_false_iff in Hb as [_ Hb].
    cbn [omap list_omap]. unfold core_of at 1.
    destruct (w t); [| contradiction]. cbn. rewrite (IH Hb). reflexivity.
Qed.

(** C10.  [buildRotationOpts] of a nil [Options] is the defaults (100,
    7, 0, false); of any other it takes the size and age limits from
    the options and sets the backup count to 0 and compression off,
    whatever else the options hold. *)
Theorem buildRotationOpts_spec :
  buildRotationOpts None =
    {| maxSize := 100; maxAge := 7; maxBackups := 0; compress := false |}
  /\ (forall o : Options,
        buildRotationOpts (Some o) =
          {| maxSize := MaxSizeInMB o; maxAge := MaxAgeInDays o;
             maxBackups := 0; compress := false |})
  /\ (forall o o' : Options,
        MaxSizeInMB o = MaxSizeInMB o' -> MaxAgeInDays o = MaxAgeInDays o' ->
        buildRotationOpts (Some o) = buildRotationOpts (Some o')).
Proof.
  split; [reflexivity |]. split; [reflexivity |].
  intros o o' Hsize Hage. unfold buildRotationOpts. rewrite Hsize, Hage.
  reflexivity.
Qed.

(** C7.  [zapConfigFromOpts] sets the level to info when the level
    string fails to parse, and to the parsed level when it parses; it
    has no error to return. *)
Theorem zapConfigFromOpts_level (opts : Options) :
  (forall (lv : zapcore.Level) (e : error),
     UnmarshalText 0%Z (Level_ opts) = (lv, Some e) ->
     zap.Level (zapConfigFromOpts opts) = InfoLevel)
  /\ (forall lv : zapcore.Level,
        UnmarshalText 0%Z (Level_ opts) = (lv, None) ->
        zap.Level (zapConfigFromOpts opts) = lv).
Proof.
  unfold zapConfigFromOpts. cbn [zap.Level].
  split; intros; rewrite H; reflexivity.
Qed.

Lemma logged_all_nil (s : World) : logged_all s [] = s.
Proof. destruct s. unfold logged_all. cbn. rewrite app_nil_r. reflexivity. Qed.

Lemma logged_all_app (s : World) (es es' : list Event) :
  logged_all (logged_all s es) es' = logged_all s (es ++ es').
Proof. unfold logged_all. cbn. rewrite app_assoc. reflexivity. Qed.

Lemma stdouts_elem (p : string) :
  p ∈ _stdouts <-> p = "stdout" \/ p = "stderr".
Proof. clear. unfold _stdouts, _stdout, _stderr. set_solver. Qed.

Lemma paths_cons_failed (options : rotationOptions) (p : string)
  (paths : list string) (e : error) :
  p ∈ _stdouts -> open_error p = Some e ->
  open_failures (p :: paths) = e :: open_failures paths
  /\ opened (p :: paths) = opened paths
  /\ built options (p :: paths) = built options paths.
Proof.
  intros Hin Hopen. unfold open_failures, opened, built. cbn [omap list_omap].
  unfold attempt. destruct (decide (p ∈ _stdouts)); [| contradiction].
  rewrite Hopen. auto.
Qed.

Lemma paths_cons_opened (options : rotationOptions) (p : string)
  (paths : list string) :
  p ∈ _stdouts -> open_error p = None ->
  open_failures (p :: paths) = open_failures paths
  /\ opened (p :: paths) = p :: opened paths
  /\ built options (p :: paths) = sink_of_path p :: built options paths.
Proof.
  intros Hin Hopen. unfold open_failures, opened, built. cbn [omap list_omap].
  unfold attempt. destruct (decide (p ∈ _stdouts)); [| contradiction].
  rewrite Hopen. repeat split. cbn. f_equal.
  unfold path_sink, sink_of_path. apply stdouts_elem in Hin.
  destruct (decide (p = "stdout")); [reflexivity |].
  destruct (decide (p = "stderr")); [reflexivity |].
  destruct Hin; contradiction.
Qed.

Lemma paths_cons_file (options : rotationOptions) (p : string)
  (paths : list string) :
  p ∉ _stdouts ->
  open_failures (p :: paths) = open_failures paths
  /\ opened (p :: paths) = opened paths
  /\ built options (p :: paths) =
       AddSync {| Filename := p; MaxSize := maxSize options;
                  MaxBackups := maxBackups options; MaxAge := maxAge options;
                  Compress := compress options |} :: built options paths.
Proof.
  intros Hout. unfold open_failures, opened, built. cbn [omap list_omap].
  unfold attempt. destruct (decide (p ∈ _stdouts)); [contradiction |].
  repeat split. cbn. f_equal. unfold path_sink.
  destruct (decide (p = "stdout")) as [E | _];
    [exfalso; apply Hout, stdouts_elem; auto |].
  destruct (decide (p = "stderr")) as [E | _];
    [exfalso; apply Hout, stdouts_elem; auto | reflexivity].
Qed.

(** The loop of [buildWriteSyncer], from the slices built so far. *)
Lemma buildWriteSyncer_loop_run (options : rotationOptions) (paths : list string) :
  forall (res : list WriteSyncer) (closers : list (M unit)) (errs : list error)
    (s : World),
  buildWriteSyncer_loop paths options res closers errs s =
    (Ret (res ++ built options paths,
          closers ++ map (fun p => emit (EvClose p)) (opened paths),
          errs ++ open_failures paths),
     logged_all s (map EvOpen (opened paths))).
Proof.
  induction paths as [| p paths IH]; intros res closers errs s.
  - cbn. rewrite !app_nil_r, logged_all_nil. reflexivity.
  - cbn [buildWriteSyncer_loop].
    destruct (decide (p ∈ _stdouts)) as [Hin | Hout].
    + unfold zap_Open. destruct (open_error p) as [e |] eqn:Hopen.
      * destruct (paths_cons_failed options p paths e Hin Hopen) as (-> & -> & ->).
        unfold mbind, mret, M_bind, M_ret. rewrite IH, <- !app_assoc. reflexivity.
      * destruct (paths_cons_opened options p paths Hin Hopen) as (-> & -> & ->).
        unfold mbind, mret, M_bind, M_ret.
        change (emit (EvOpen p) s) with (Ret tt, logged_all s [EvOpen p]).
        cbv beta iota. rewrite IH, <- !app_assoc.
        cbn [app map]. rewrite logged_all_app. reflexivity.
    + destruct (paths_cons_file options p paths Hout) as (-> & -> & ->).
      rewrite IH, <- !app_assoc. reflexivity.
Qed.

Lemma closeAll_run (ps : list string) :
  forall s : World,
  closeAll (map (fun p => emit (EvClose p)) ps) s
    = (Ret tt, logged_all s (map EvClose ps)).
Proof.
  induction ps as [| p ps IH]; intros s.
  - cbn. rewrite logged_all_nil. reflexivity.
  - cbn [map closeAll]. unfold mbind, M_bind.
    change (emit (EvClose p) s) with (Ret tt, logged_all s [EvClose p]).
    cbv beta iota. rewrite IH, logged_all_app. reflexivity.
Qed.

Lemma built_all (options : rotationOptions) (paths : list string) :
  open_failures paths = [] -> built options paths = map (path_sink options) paths.
Proof.
  unfold open_failures, built.
  induction paths as [| p paths IH]; intros H; [reflexivity |].
  cbn in *. destruct (attempt p); [discriminate |].
  cbn. rewrite (IH H). reflexivity.
Qed.

Lemma buildWriteSyncer_run (paths : list string) (options : rotationOptions)
  (s : World) :
  buildWriteSyncer paths options s =
    match open_failures paths with
    | [] =>
        (Ret (Some (CombineWriteSyncers (map (path_sink options) paths)), None),
         logged_all s (map EvOpen (opened paths)))
    | errs =>
        (Ret (None, Some (Errorf "build rotate options has err: %+v" errs)),
         logged_all s (map EvOpen (opened paths) ++ map EvClose (opened paths)))
    end.
Proof.
  unfold buildWriteSyncer. unfold mbind at 1. unfold M_bind.
  rewrite buildWriteSyncer_loop_run. cbn [app].
  destruct (open_failures paths) as [| e errs] eqn:Hfail.
  - cbn. rewrite (built_all options paths Hfail). reflexivity.
  - cbn [length Nat.eqb negb]. unfold mbind, M_bind.
    rewrite closeAll_run, logged_all_app. reflexivity.
Qed.

(** C4.  [buildWriteSyncer] makes the standard-output or standard-error
    stream of a path so named and a rotating file sink, bound to the
    path with the given limits, of every other path.  If no console
    stream fails to open it returns the fan-out of all the sinks, in
    order, and no error.  If one fails, it returns a nil sink and one
    error holding every failure, in order, after closing every stream
    it had opened. *)
Theorem buildWriteSyncer_spec (paths : list string) (options : rotationOptions)
  (s : World) :
  (open_failures paths = [] ->
     buildWriteSyncer paths options s =
       (Ret (Some (CombineWriteSyncers (map (path_sink options) paths)), None),
        logged_all s (map EvOpen (opened paths))))
  /\ (open_failures paths <> [] ->
      buildWriteSyncer paths options s =
        (Ret (None,
              Some (Errorf "build rotate options has err: %+v"
                      (open_failures paths))),
         logged_all s (map EvOpen (opened paths) ++ map EvClose (opened paths))))
  /\ path_sink options "stdout" = Stdout
  /\ path_sink options "stderr" = Stderr
  /\ forall p : string, p <> "stdout" -> p <> "stderr" ->
       path_sink options p =
         AddSync {| Filename := p; MaxSize := maxSize options;
                    MaxBackups := maxBackups options; MaxAge := maxAge options;
                    Compress := compress options |}.
Proof.
  rewrite buildWriteSyncer_run.
  split; [| split; [| split; [reflexivity | split; [reflexivity |]]]].
  - intros ->. reflexivity.
  - destruct (open_failures paths); [congruence | reflexivity].
  - intros p H1 H2. unfold path_sink.
    destruct (decide (p = "stdout")); [contradiction |].
    destruct (decide (p = "stderr")); [contradiction | reflexivity].
Qed.

(** The core of the logger [zap.New] builds from the options of
    [buildZapOptions] for a configuration of [zapConfigFromOpts], with
    the two options [Init] adds: the given core under the sampler. *)
Lemma Init_core (opts : Options) (c : Core) (errSink : option WriteSyncer) :
  zap.core
    (zap.New_value c
       (buildZapOptions (zapConfigFromOpts opts) errSink ++
        [zap.AddStacktrace zapcore.PanicLevel; zap.AddCallerSkip 1]))
  = NewSamplerWithOptions c 1000 100 100 [].
Proof.
  unfold buildZapOptions, zapConfigFromOpts.
  cbn [zap.Development_ zap.DisableCaller zap.DisableStacktrace zap.Sampling
       zap.InitialFields zap.Hook zap.Initial zap.Thereafter].
  rewrite map_size_empty. cbn [Nat.ltb Nat.leb].
  destruct (Development opts), (EnableCaller opts), (DisableStacktrace opts);
    reflexivity.
Qed.

(** C3.  When every console stream among the destinations opens, [Init]
    returns and stores a logger whose core writes to two sinks: the
    fan-out of [OutputPaths], enabled at a level [L] exactly when
    [B <= L <= warn], and the fan-out of [ErrorOutputPaths], enabled
    exactly when [max B warn <= L <= fatal], where [B] is the level of
    the translated configuration.  Levels from error up never reach the
    first sink. *)
Theorem Init_routes (opts : Options) (s : World) :
  open_failures (OutputPaths opts) = [] ->
  open_failures (ErrorOutputPaths opts) = [] ->
  exists (lg : logger) (s' : World) (accepts_out accepts_err : zapcore.Level -> bool),
    Init (Some opts) s = (Ret tt, s')
    /\ _logger s' = Some lg
    /\ _options s' = Some opts
    /\ zapcore.routes (zap.core (zapLogger lg)) =
         [ (CombineWriteSyncers
              (map (path_sink (buildRotationOpts (Some opts))) (OutputPaths opts)),
            accepts_out);
           (CombineWriteSyncers
              (map (path_sink (buildRotationOpts (Some opts)))
                 (ErrorOutputPaths opts)),
            accepts_err) ]
    /\ forall L : zapcore.Level,
         let B := zap.Level (zapConfigFromOpts opts) in
         (accepts_out L = true <-> (B <= L <= zapcore.WarnLevel)%Z)
         /\ (accepts_err L = true <->
               (Z.max B zapcore.WarnLevel <= L <= zapcore.FatalLevel)%Z)
         /\ ((zapcore.ErrorLevel <= L)%Z -> accepts_out L = false).
Proof.
  intros Hout Herr.
  set (B := zap.Level (zapConfigFromOpts opts)).
  set (ro := buildRotationOpts (Some opts)).
  set (out := CombineWriteSyncers (map (path_sink ro) (OutputPaths opts))).
  set (errOut := CombineWriteSyncers (map (path_sink ro) (ErrorOutputPaths opts))).
  set (enc := buildEncoder (zapConfigFromOpts opts)).
  set (z := zap.New_value
              (NewTee (tee_cores enc
                 [ {| w := Some out; enabler := levelFunc B zapcore.WarnLevel |};
                   {| w := Some errOut;
                      enabler := levelFunc (maxLevel B zapcore.WarnLevel)
                                   zapcore.FatalLevel |} ]))
              (buildZapOptions (zapConfigFromOpts opts) (Some errOut) ++
               [zap.AddStacktrace zapcore.PanicLevel; zap.AddCallerSkip 1])).
  exists {| zapLogger := z; embedded := {| level := zapcore.InfoLevel; log := z |} |}.
  eexists. exists (levelFunc B zapcore.WarnLevel).
  exists (levelFunc (maxLevel B zapcore.WarnLevel) zapcore.FatalLevel).
  split; [| split; [| split; [| split]]].
  - unfold Init, normalLogOpts. unfold mbind, M_bind. cbn [set_options].
    pose proof (buildWriteSyncer_run (OutputPaths opts) ro
                (set_options (Some opts) s).2) as E1.
    rewrite Hout in E1. cbn [set_options snd] in E1. fold ro. rewrite E1.
    cbv beta iota.
    pose proof (buildWriteSyncer_run (ErrorOutputPaths opts) ro
                (logged_all
                   {| trace := trace s; _logger := _logger s;
                      _options := Some opts |}
                   (map EvOpen (opened (OutputPaths opts))))) as E2.
    rewrite Herr in E2. unfold mret, M_ret. cbv beta iota. rewrite E2.
    cbv beta iota. cbn [app].
    pose proof (newTee_run
                [ {| w := Some out; enabler := levelFunc B zapcore.WarnLevel |};
                  {| w := Some errOut;
                     enabler := levelFunc (maxLevel B zapcore.WarnLevel)
                                  zapcore.FatalLevel |} ]
                enc
                (buildZapOptions (zapConfigFromOpts opts) (Some errOut) ++
                 [zap.AddStacktrace zapcore.PanicLevel; zap.AddCallerSkip 1])
                (logged_all
                   (logged_all
                      {| trace := trace s; _logger := _logger s;
                         _options := Some opts |}
                      (map EvOpen (opened (OutputPaths opts))))
                   (map EvOpen (opened (ErrorOutputPaths opts))))) as E3.
    cbn [existsb nil_sink w orb] in E3. fold B enc out errOut. rewrite E3.
    reflexivity.
  - reflexivity.
  - reflexivity.
  - cbn [zapLogger]. subst z. rewrite Init_core. reflexivity.
  - intros L. cbv zeta.
    pose proof (levelFunc_true_iff B zapcore.WarnLevel L) as H1.
    pose proof (levelFunc_true_iff (maxLevel B zapcore.WarnLevel)
                  zapcore.FatalLevel L) as H2.
    assert (Hmax : maxLevel B zapcore.WarnLevel = Z.max B zapcore.WarnLevel).
    { unfold maxLevel. destruct (Z.ltb_spec B zapcore.WarnLevel); lia. }
    rewrite Hmax in *. unfold zapcore.WarnLevel, zapcore.FatalLevel,
      zapcore.ErrorLevel in *.
    split; [| split].
    + split; intros HL; [apply H1 in HL; lia | apply H1; lia].
    + split; intros HL; [apply H2 in HL; lia | apply H2; lia].
    + intros HL. destruct (levelFunc B 1%Z L) eqn:E; [| reflexivity].
      destruct H1 as [H1 _]. specialize (H1 eq_refl). lia.
Qed.

(** ** Further theorems: initialisation *)

(** [Init] on options that are not nil, in full: it stops at the first
    destination list with a stream that fails to open. *)
Lemma Init_run (opts : Options) (s : World) :
  Init (Some opts) s =
    let s0 := {| trace := trace s; _logger := _logger s;
                 _options := Some opts |} in
    let outs := opened (OutputPaths opts) in
    let errs := opened (ErrorOutputPaths opts) in
    match open_failures (OutputPaths opts) with
    | [] =>
        match open_failures (ErrorOutputPaths opts) with
        | [] =>
            (Ret tt,
             {| trace := trace s ++ map EvOpen outs ++ map EvOpen errs ++
                         [EvNew; EvKlogInit; EvRedirectStdLog];
                _logger := Some (Init_logger opts);
                _options := Some opts |})
        | e :: es =>
            (Panicked (PanicError
               (Errorf "build rotate options has err: %+v" (e :: es))),
             logged_all s0
               (map EvOpen outs ++ map EvOpen errs ++ map EvClose errs))
        end
    | e :: es =>
        (Panicked (PanicError
           (Errorf "build rotate options has err: %+v" (e :: es))),
         logged_all s0 (map EvOpen outs ++ map EvClose outs))
    end.
Proof.
  cbv zeta. unfold Init, normalLogOpts. unfold mbind, M_bind.
  cbn [set_options]. rewrite buildWriteSyncer_run.
  destruct (open_failures (OutputPaths opts)) as [| e es]; [| reflexivity].
  unfold mret, M_ret. cbv beta iota. rewrite buildWriteSyncer_run.
  destruct (open_failures (ErrorOutputPaths opts)) as [| e es].
  - cbv beta iota. cbn [app]. rewrite newTee_run.
    cbn [existsb nil_sink w orb]. cbv zeta.
    unfold logged, logged_all, set_logger, klog_InitLogger, zap_RedirectStdLog,
      emit. cbn [trace _logger _options fst snd]. f_equal. f_equal.
    rewrite <- !app_assoc. reflexivity.
  - cbv beta iota. rewrite logged_all_app. reflexivity.
Qed.

Lemma maxLevel_max (x y : zapcore.Level) : maxLevel x y = Z.max x y.
Proof. unfold maxLevel. destruct (Z.ltb_spec x y); lia. Qed.

(** The core of the logger a successful [Init] stores. *)
Lemma Init_logger_core (opts : Options) :
  zap.core (zapLogger (Init_logger opts)) =
    NewSamplerWithOptions
      (multiCore
         [ NewCore (buildEncoder (zapConfigFromOpts opts))
             (CombineWriteSyncers
                (map (path_sink (buildRotationOpts (Some opts)))
                   (OutputPaths opts)))
             (levelFunc (zap.Level (zapConfigFromOpts opts)) zapcore.WarnLevel);
           NewCore (buildEncoder (zapConfigFromOpts opts))
             (CombineWriteSyncers
                (map (path_sink (buildRotationOpts (Some opts)))
                   (ErrorOutputPaths opts)))
             (levelFunc
                (maxLevel (zap.Level (zapConfigFromOpts opts)) zapcore.WarnLevel)
                zapcore.FatalLevel) ])
      1000 100 100 [].
Proof.
  unfold Init_logger. cbv zeta. cbn [NewLogger zapLogger].
  rewrite Init_core. reflexivity.
Qed.

Lemma levelFunc_bool (minL maxL L : zapcore.Level) :
  levelFunc minL maxL L =
    ((minL <=? maxL) && (maxL <=? zapcore.FatalLevel)
     && (minL <=? L) && (L <=? maxL))%Z.
Proof.
  unfold levelFunc.
  destruct (Z.ltb_spec maxL minL), (Z.leb_spec minL maxL),
    (Z.ltb_spec zapcore.FatalLevel maxL), (Z.leb_spec maxL zapcore.FatalLevel),
    (Z.ltb_spec L minL), (Z.leb_spec minL L),
    (Z.ltb_spec maxL L), (Z.leb_spec L maxL);
    try reflexivity; lia.
Qed.

(** The two predicates of [Init] together: some sink accepts [L]
    exactly from the configured level up to fatal. *)
Lemma Init_predicates_cover (B L : zapcore.Level) :
  levelFunc B zapcore.WarnLevel L
  || levelFunc (maxLevel B zapcore.WarnLevel) zapcore.FatalLevel L = true
  <-> (B <= L <= zapcore.FatalLevel)%Z.
Proof.
  rewrite orb_true_iff, !levelFunc_true_iff, maxLevel_max.
  unfold zapcore.WarnLevel, zapcore.FatalLevel. lia.
Qed.

(** X1.  After an [Init] whose console streams all open, the stored
    logger's backend is enabled at a level [L] exactly when
    [B <= L <= fatal], where [B] is the level of the translated
    configuration: nothing below the configured level is enabled, and
    everything from it up to fatal is. *)
Theorem Init_level_gating (opts : Options) (s : World) :
  open_failures (OutputPaths opts) = [] ->
  open_failures (ErrorOutputPaths opts) = [] ->
  exists (lg : logger) (s' : World),
    Init (Some opts) s = (Ret tt, s')
    /\ _logger s' = Some lg
    /\ forall L : zapcore.Level,
         zapcore.Enabled (zap.core (zapLogger lg)) L = true
         <-> (zap.Level (zapConfigFromOpts opts) <= L <= zapcore.FatalLevel)%Z.
Proof.
  intros Hout Herr. exists (Init_logger opts). eexists.
  rewrite Init_run, Hout, Herr. cbv zeta.
  split; [reflexivity |]. split; [reflexivity |].
  intros L. rewrite Init_logger_core. cbn [zapcore.Enabled existsb].
  rewrite orb_false_r. apply Init_predicates_cover.
Qed.


(** X3.  If a console stream of [OutputPaths] fails to open, [Init]
    panics with the aggregate error of those failures.  By then it has
    replaced [_options]; it has opened and closed again the console
    streams of [OutputPaths] only, has not touched [ErrorOutputPaths],
    has built no logger and has left [_logger] as it was. *)
Theorem Init_output_failure (opts : Options) (s : World) :
  open_failures (OutputPaths opts) <> [] ->
  Init (Some opts) s =
    (Panicked (PanicError
       (Errorf "build rotate options has err: %+v"
          (open_failures (OutputPaths opts)))),
     {| trace := trace s ++ map EvOpen (opened (OutputPaths opts))
                         ++ map EvClose (opened (OutputPaths opts));
        _logger := _logger s;
        _options := Some opts |}).
Proof.
  intros Hfail. rewrite Init_run. cbv zeta.
  destruct (open_failures (OutputPaths opts)); [congruence | reflexivity].
Qed.

(** X4.  If the console streams of [OutputPaths] open and one of
    [ErrorOutputPaths] fails, [Init] panics with the aggregate error of
    the second list.  The streams opened for [ErrorOutputPaths] are
    closed again; those opened for [OutputPaths] are not.  No logger is
    built and [_logger] is left as it was. *)
Theorem Init_error_output_failure (opts : Options) (s : World) :
  open_failures (OutputPaths opts) = [] ->
  open_failures (ErrorOutputPaths opts) <> [] ->
  Init (Some opts) s =
    (Panicked (PanicError
       (Errorf "build rotate options has err: %+v"
          (open_failures (ErrorOutputPaths opts)))),
     {| trace := trace s ++ map EvOpen (opened (OutputPaths opts))
                         ++ map EvOpen (opened (ErrorOutputPaths opts))
                         ++ map EvClose (opened (ErrorOutputPaths opts));
        _logger := _logger s;
        _options := Some opts |}).
Proof.
  intros Hout Hfail. rewrite Init_run, Hout. cbv zeta.
  destruct (open_failures (ErrorOutputPaths opts)); [congruence | reflexivity].
Qed.

(** X5.  Whatever [Init] is given, nil included, and however it ends,
    [_options] holds its argument afterwards, so that [GetOptions]
    returns it; and an [Init] that does not return leaves [_logger] as
    it was. *)
Theorem Init_options_stored (opts : option Options) (s : World) :
  GetOptions (Init opts s).2 = (Ret opts, (Init opts s).2)
  /\ ((Init opts s).1 <> Ret tt -> _logger (Init opts s).2 = _logger s).
Proof.
  unfold GetOptions. destruct opts as [o |]; [| split; reflexivity].
  rewrite Init_run. cbv zeta.
  destruct (open_failures (OutputPaths o)); [| split; reflexivity].
  destruct (open_failures (ErrorOutputPaths o)); split; try reflexivity.
  cbn. congruence.
Qed.

(** ** Further theorems: configuration, encoder and options *)

(** X6.  The logger a successful [Init] stores is in development mode
    exactly when the options say so, captures the caller exactly when
    [EnableCaller] is set, skips one caller frame and reports the
    engine's own errors to the [ErrorOutputPaths] sink.  Its stack-trace
    threshold is the panic level whatever [Development] and
    [DisableStacktrace] hold: the option [Init] appends comes last. *)
Theorem Init_logger_settings (opts : Options) (s : World) :
  open_failures (OutputPaths opts) = [] ->
  open_failures (ErrorOutputPaths opts) = [] ->
  exists (lg : logger) (s' : World),
    Init (Some opts) s = (Ret tt, s')
    /\ _logger s' = Some lg
    /\ zap.development (zapLogger lg) = Development opts
    /\ zap.addCaller (zapLogger lg) = EnableCaller opts
    /\ zap.addStack (zapLogger lg) = zapcore.PanicLevel
    /\ zap.callerSkip (zapLogger lg) = 1%Z
    /\ zap.errorOutput (zapLogger lg) =
         Some (CombineWriteSyncers
                 (map (path_sink (buildRotationOpts (Some opts)))
                    (ErrorOutputPaths opts))).
Proof.
  intros Hout Herr. exists (Init_logger opts). eexists.
  rewrite Init_run, Hout, Herr. cbv zeta.
  split; [reflexivity |]. split; [reflexivity |].
  unfold Init_logger. cbv zeta. cbn [NewLogger zapLogger].
  unfold buildZapOptions, zapConfigFromOpts.
  cbn [zap.Development_ zap.DisableCaller zap.DisableStacktrace zap.Sampling
       zap.InitialFields zap.Hook zap.Initial zap.Thereafter].
  rewrite map_size_empty. cbn [Nat.ltb Nat.leb].
  destruct (Development opts), (EnableCaller opts), (DisableStacktrace opts);
    repeat split; reflexivity.
Qed.

(** X7.  The encoder of a translated configuration is the JSON encoder
    exactly when the format is [jsonFormat], and the console encoder for
    every other format, known or not.  Level names are coloured exactly
    when the format is [consoleFormat] and [EnableColor] is set, so a
    JSON encoder never colours them. *)
Theorem encoder_of_format (opts : Options) :
  let enc := buildEncoder (zapConfigFromOpts opts) in
  (is_json enc = true <-> Format opts = jsonFormat)
  /\ (zapcore.EncodeLevel (encoder_config enc) = zapcore.CapitalColorLevelEncoder
      <-> Format opts = consoleFormat /\ EnableColor opts = true)
  /\ (is_json enc = true ->
      zapcore.EncodeLevel (encoder_config enc) = zapcore.CapitalLevelEncoder).
Proof.
  cbv zeta. unfold buildEncoder, zapConfigFromOpts, encoderConfigFromOpts.
  cbn [zap.Encoding zap.EncoderConfig].
  unfold jsonFormat, consoleFormat.
  destruct (decide (Format opts = "json")) as [E | E];
    cbn [is_json encoder_config zapcore.EncodeLevel].
  - rewrite E. rewrite bool_decide_eq_false_2 by discriminate.
    cbn [andb]. split; [split; auto |]. split; [| reflexivity].
    split; [discriminate | intros [? _]; discriminate].
  - split; [split; [discriminate | contradiction] |]. split; [| discriminate].
    split.
    + intros Hc. destruct (bool_decide_reflect (Format opts = "console"));
        [| discriminate].
      destruct (EnableColor opts); [auto | discriminate].
    + intros [-> ->]. reflexivity.
Qed.

#[local] Instance string_leb_total : Total (fun a b => Is_true (String.leb a b)).
Proof.
  intros a b. destruct (String.leb_total a b) as [H | H]; rewrite H; auto.
Qed.


(** ** Further theorems: sinks and the tee *)

Lemma files_only (options : rotationOptions) (paths : list string) :
  Forall (fun p => p ∉ _stdouts) paths ->
  open_failures paths = []
  /\ opened paths = []
  /\ map (path_sink options) paths =
       map (fun p => AddSync {| Filename := p; MaxSize := maxSize options;
                                MaxBackups := maxBackups options;
                                MaxAge := maxAge options;
                                Compress := compress options |}) paths.
Proof.
  induction 1 as [| p paths Hp _ (IH1 & IH2 & IH3)]; [auto |].
  destruct (paths_cons_file options p paths Hp) as (E1 & E2 & _).
  rewrite E1, E2. repeat split; auto.
  cbn [map]. rewrite IH3. f_equal. unfold path_sink.
  destruct (decide (p = "stdout")) as [E | _];
    [exfalso; apply Hp, stdouts_elem; auto |].
  destruct (decide (p = "stderr")) as [E | _];
    [exfalso; apply Hp, stdouts_elem; auto | reflexivity].
Qed.

(** X9.  A list of destinations that names no console stream cannot
    fail, whatever the environment: [buildWriteSyncer] returns the
    fan-out of one rotating file sink per path, in order, with no error,
    and opens nothing while it does. *)
Theorem buildWriteSyncer_files_only (paths : list string)
  (options : rotationOptions) (s : World) :
  Forall (fun p => p ∉ _stdouts) paths ->
  buildWriteSyncer paths options s =
    (Ret (Some (CombineWriteSyncers
                  (map (fun p => AddSync
                          {| Filename := p; MaxSize := maxSize options;
                             MaxBackups := maxBackups options;
                             MaxAge := maxAge options;
                             Compress := compress options |}) paths)),
          None),
     s).
Proof.
  intros Hfiles. destruct (files_only options paths Hfiles) as (E1 & E2 & E3).
  rewrite buildWriteSyncer_run, E1, E2, E3. cbn [map].
  rewrite logged_all_nil. reflexivity.
Qed.

Lemma file_sinks_of_paths (options : rotationOptions) (paths : list string)
  (lj : lumberjack_Logger) :
  lj ∈ file_sinks (CombineWriteSyncers (map (path_sink options) paths)) ->
  Filename lj ∈ paths
  /\ (Filename lj ∉ _stdouts)
  /\ MaxSize lj = maxSize options
  /\ MaxAge lj = maxAge options
  /\ MaxBackups lj = maxBackups options
  /\ Compress lj = compress options.
Proof.
  cbn [file_sinks]. induction paths as [| p paths IH]; cbn [map flat_map].
  - intros H. inversion H.
  - rewrite elem_of_app. intros [H | H].
    + unfold path_sink in H.
      destruct (decide (p = "stdout")); [inversion H |].
      destruct (decide (p = "stderr")); [inversion H |].
      cbn [file_sinks] in H. apply list_elem_of_singleton in H. subst lj.
      cbn. repeat split; auto; [left |].
      rewrite stdouts_elem. intros [? | ?]; contradiction.
    + destruct (IH H) as (H1 & H2). split; [right; exact H1 | exact H2].
Qed.

(** X10.  After an [Init] whose console streams all open, every rotating
    file writer behind the stored logger is bound to one of the
    configured paths, none of them a console name, and carries the size
    and age limits of the options, keeps no bound on backups and does
    not compress. *)
Theorem Init_file_sinks (opts : Options) (s : World) :
  open_failures (OutputPaths opts) = [] ->
  open_failures (ErrorOutputPaths opts) = [] ->
  exists (lg : logger) (s' : World),
    Init (Some opts) s = (Ret tt, s')
    /\ _logger s' = Some lg
    /\ forall (r : WriteSyncer * (zapcore.Level -> bool)) (lj : lumberjack_Logger),
         r ∈ zapcore.routes (zap.core (zapLogger lg)) ->
         lj ∈ file_sinks r.1 ->
         (Filename lj ∈ OutputPaths opts \/ Filename lj ∈ ErrorOutputPaths opts)
         /\ (Filename lj ∉ _stdouts)
         /\ MaxSize lj = MaxSizeInMB opts
         /\ MaxAge lj = MaxAgeInDays opts
         /\ MaxBackups lj = 0%Z
         /\ Compress lj = false.
Proof.
  intros Hout Herr. exists (Init_logger opts). eexists.
  rewrite Init_run, Hout, Herr. cbv zeta.
  split; [reflexivity |]. split; [reflexivity |].
  intros r lj Hr Hlj. rewrite Init_logger_core in Hr.
  cbn [zapcore.routes flat_map app] in Hr.
  apply elem_of_cons in Hr as [-> | Hr];
    [| apply list_elem_of_singleton in Hr; subst r];
    cbn [fst] in Hlj; apply file_sinks_of_paths in Hlj;
    destruct Hlj as (H1 & H2 & H3 & H4 & H5 & H6);
    cbn in H3, H4, H5, H6; auto 10.
Qed.

Lemma NewTee_routes (cs : list Core) :
  zapcore.routes (NewTee cs) = flat_map zapcore.routes cs.
Proof.
  destruct cs as [| c [| c' cs]]; cbn; rewrite ?app_nil_r; reflexivity.
Qed.

Lemma NewTee_Enabled (cs : list Core) (L : zapcore.Level) :
  zapcore.Enabled (NewTee cs) L = existsb (fun c => zapcore.Enabled c L) cs.
Proof.
  destruct cs as [| c [| c' cs]]; cbn; rewrite ?orb_false_r; reflexivity.
Qed.

Lemma tee_cores_routes (encoder : zapcore.Encoder) (topts : list teeOption)
  (L : zapcore.Level) :
  flat_map zapcore.routes (tee_cores encoder topts) = omap route_of topts
  /\ existsb (fun c => zapcore.Enabled c L) (tee_cores encoder topts) =
       existsb (fun t => negb (nil_sink t) && enabler t L) topts.
Proof.
  unfold tee_cores, core_of, route_of, nil_sink.
  induction topts as [| t topts [IH1 IH2]]; [auto |].
  cbn [omap list_omap existsb].
  destruct (w t); cbn; rewrite ?IH1, ?IH2; auto.
Qed.

Lemma options_keep_core (opts : list zap.Option) :
  forallb keeps_core opts = true ->
  forall (l : zap.Logger) (L : zapcore.Level),
    zapcore.routes (zap.core (fold_left zap.apply opts l)) = zapcore.routes (zap.core l)
    /\ zapcore.Enabled (zap.core (fold_left zap.apply opts l)) L =
         zapcore.Enabled (zap.core l) L.
Proof.
  induction opts as [| o opts IH]; intros Hk l L; [auto |].
  cbn in Hk. apply andb_true_iff in Hk as [Ho Hk].
  cbn [fold_left]. destruct (IH Hk (zap.apply l o) L) as [-> ->].
  destruct o; cbn in *; auto; discriminate.
Qed.

(** X11.  When no tee option has a nil sink and no zap option replaces
    the core, the logger [newTee] builds writes through exactly the
    options' sinks, each under its own predicate and in the options'
    order, for any number of options; its backend is enabled at a level
    exactly when some option's predicate accepts it. *)
Theorem newTee_routes (topts : list teeOption) (encoder : zapcore.Encoder)
  (opts : list zap.Option) (s : World) :
  Forall (fun t => w t <> None) topts ->
  forallb keeps_core opts = true ->
  exists (lg : logger) (z : zap.Logger),
    newTee topts encoder opts s = (Ret (lg, z), logged s EvNew)
    /\ zapLogger lg = z
    /\ zapcore.routes (zap.core z) = omap route_of topts
    /\ length (zapcore.routes (zap.core z)) = length topts
    /\ forall L : zapcore.Level,
         zapcore.Enabled (zap.core z) L = existsb (fun t => enabler t L) topts.
Proof.
  intros Hall Hk. pose proof Hall as Hb. apply nil_sink_Forall in Hb.
  rewrite newTee_run, Hb. cbv zeta. do 2 eexists.
  split; [reflexivity |]. split; [reflexivity |].
  unfold zap.New_value.
  assert (Hroutes : forall l, zapcore.routes (zap.core (fold_left zap.apply opts l))
                              = zapcore.routes (zap.core l)).
  { intros l. apply (options_keep_core opts Hk l 0%Z). }
  rewrite Hroutes. cbn [zap.core]. rewrite NewTee_routes.
  destruct (tee_cores_routes encoder topts 0%Z) as [-> _].
  split; [reflexivity |]. split.
  - clear Hb. induction Hall as [| t topts Ht _ IH]; [reflexivity |].
    cbn [omap list_omap]. unfold route_of at 1.
    destruct (w t); [| contradiction]. cbn. rewrite IH. reflexivity.
  - intros L. destruct (options_keep_core opts Hk
      {| zap.core := NewTee (tee_cores encoder topts);
         zap.development := false; zap.addCaller := false;
         zap.name := ""; zap.errorOutput := Some Stderr;
         zap.addStack := (zapcore.FatalLevel + 1)%Z;
         zap.callerSkip := 0 |} L) as [_ ->].
    cbn [zap.core]. rewrite NewTee_Enabled.
    destruct (tee_cores_routes encoder topts L) as [_ ->].
    clear Hb. induction Hall as [| t topts Ht _ IH]; [reflexivity |].
    cbn [existsb]. rewrite IH. unfold nil_sink.
    destruct (w t); [reflexivity | contradiction].
Qed.

(** ** Further theorems: views *)

Lemma check_below_dpanic (l : zap.Logger) (lvl : zapcore.Level) (msg : string) :
  (lvl < zapcore.DPanicLevel)%Z ->
  zap.check l lvl msg =
    if zapcore.Enabled (zap.core l) lvl
    then Some {| zap.entLevel := lvl; zap.entMessage := msg;
                 zap.should := zap.WriteThenNoop |}
    else None.
Proof.
  unfold zap.check, zapcore.DPanicLevel, zapcore.PanicLevel, zapcore.FatalLevel.
  intros Hlow.
  destruct (Z.ltb_spec lvl 3); [| lia].
  destruct (Z.eqb_spec lvl 4); [lia |].
  destruct (Z.eqb_spec lvl 5); [lia |].
  destruct (Z.eqb_spec lvl 3); [lia |].
  destruct (zapcore.Enabled (zap.core l) lvl); reflexivity.
Qed.


Lemma entries_app (tr tr' : list Event) :
  entries (tr ++ tr') = entries tr ++ entries tr'.
Proof. unfold entries. apply omap_app. Qed.

(** [Info] of a view bound to a level below dpanic. *)
Lemma infoLogger_Info_run (il : infoLogger) (msg : string) (fields : list Field)
  (s : World) :
  (level il < zapcore.DPanicLevel)%Z ->
  infoLogger_Info il msg fields s =
    (Ret tt,
     logged_all s
       (EvCheck (level il) msg ::
        if zapcore.Enabled (zap.core (log il)) (level il)
        then [EvWrite (level il) msg fields] else [])).
Proof.
  intros Hlow. unfold infoLogger_Info, zap_Logger_Check, zap_CheckedEntry_Write.
  rewrite (check_below_dpanic _ _ _ Hlow).
  destruct (zapcore.Enabled (zap.core (log il)) (level il)); run_M;
    unfold logged_all; cbn; rewrite <- ?app_assoc; reflexivity.
Qed.

Lemma bind_Ret {A B : Type} (m : M A) (f : A -> M B) (s s' : World) (a : A) :
  m s = (Ret a, s') -> (m ≫= f) s = f a s'.
Proof. intros E. unfold mbind, M_bind. rewrite E. reflexivity. Qed.


Lemma logger_V_run (l : logger) (v : Level) (s : World) :
  logger_V l v s =
    (Ret (if zapcore.Enabled (zap.core (zapLogger l)) v
          then live {| level := v; log := zapLogger l |}
          else noop disabledInfoLogger),
     logged s (EvEnabled v)).
Proof.
  unfold logger_V, zap_Core_Enabled. run_M.
  destruct (zapcore.Enabled (zap.core (zapLogger l)) v); reflexivity.
Qed.


(** X13.  For a logger whose cached view is in order, calling [Info] on
    the logger itself and calling it on the view [V] returns for the
    info level end the same way and hand the same entries to the cores. *)
Theorem Info_as_V_info (l : logger) (msg : string) (fields : list Field)
  (s : World) :
  cached_view_ok l ->
  (logger_Info l msg fields s).1 =
    ((view ← logger_V l InfoLevel; Info view msg fields) s).1
  /\ entries (trace (logger_Info l msg fields s).2) =
       entries (trace ((view ← logger_V l InfoLevel;
                        Info view msg fields) s).2).
Proof.
  intros [Hlog Hlevel]. unfold logger_Info.
  rewrite infoLogger_Info_run by (rewrite Hlevel; reflexivity).
  rewrite Hlog, Hlevel.
  rewrite (bind_Ret _ _ _ _ _ (logger_V_run l InfoLevel s)). unfold InfoLevel.
  destruct (zapcore.Enabled (zap.core (zapLogger l)) zapcore.InfoLevel) eqn:Hen.
  - cbn [Info InfoLogger_methods infoLogger_methods].
    rewrite infoLogger_Info_run by reflexivity. cbn [level log]. rewrite Hen.
    cbn [fst snd logged logged_all trace]. split; [reflexivity |].
    rewrite !entries_app. cbn. rewrite ?app_nil_r. reflexivity.
  - cbn [fst snd logged logged_all trace Info InfoLogger_methods
         noopInfoLogger_methods mret M_ret].
    split; [reflexivity |]. rewrite !entries_app. cbn.
    rewrite ?app_nil_r. reflexivity.
Qed.

(** X14.  [Infow] on a view whose level (below dpanic) the backend
    rejects only asks for the entry: the key-value arguments are not
    looked at, so a malformed list raises no diagnostic, in development
    mode or not. *)
Theorem Infow_disabled (il : infoLogger) (msg : string)
  (keysAndValues : list Value) (s : World) :
  (level il < zapcore.DPanicLevel)%Z ->
  zapcore.Enabled (zap.core (log il)) (level il) = false ->
  infoLogger_Infow il msg keysAndValues s =
    (Ret tt, logged s (EvCheck (level il) msg)).
Proof.
  intros Hlow Hoff. unfold infoLogger_Infow, zap_Logger_Check.
  rewrite (check_below_dpanic _ _ _ Hlow), Hoff. reflexivity.
Qed.



(** ** Further theorems: derived loggers and the package functions *)

Lemma With_core (l : zap.Logger) (fields : list Field) (L : zapcore.Level) :
  zapcore.routes (zap.core (zap_Logger_With l fields)) = zapcore.routes (zap.core l)
  /\ zapcore.Enabled (zap.core (zap_Logger_With l fields)) L =
       zapcore.Enabled (zap.core l) L
  /\ context_fields (zap.core (zap_Logger_With l fields)) =
       context_fields (zap.core l) ++ fields
  /\ zap.development (zap_Logger_With l fields) = zap.development l
  /\ zap.name (zap_Logger_With l fields) = zap.name l.
Proof.
  destruct fields; cbn; rewrite ?app_nil_r; auto.
Qed.

Lemma wellFormedPrefix_flatten (kvs : list (string * Value)) (rest : list Value) :
  wellFormedPrefix (flatten_pairs kvs ++ rest) = kvs ++ wellFormedPrefix rest
  /\ offence (flatten_pairs kvs ++ rest) = offence rest.
Proof.
  unfold flatten_pairs.
  induction kvs as [| [k v] kvs [IH1 IH2]]; [auto |].
  cbn. rewrite IH1, IH2. auto.
Qed.

Lemma wellFormedPrefix_length (args : list Value) :
  (2 * length (wellFormedPrefix args) <= length args)%nat.
Proof.
  induction args as [| v | a b rest IH] using pairs_ind; cbn; try lia.
  - destruct v; cbn; lia.
  - destruct a; cbn; lia.
Qed.

(** [WithValues] with a logger that is not in development mode. *)
Lemma logger_WithValues_run (l : logger) (keysAndValues : list Value) (s : World) :
  zap.development (zapLogger l) = false ->
  logger_WithValues l keysAndValues s =
    (Ret (NewLogger
            (zap_Logger_With (zapLogger l)
               (map pair_field (wellFormedPrefix keysAndValues)))),
     match offence keysAndValues with
     | Some (m, key, v) => logged s (EvLog zapcore.DPanicLevel m [Any key v])
     | None => s
     end).
Proof.
  intros Hdev. unfold logger_WithValues.
  pose proof (handleFields_run (zapLogger l) keysAndValues [] s) as Hrun.
  rewrite app_nil_r in Hrun.
  destruct (offence keysAndValues) as [[[m key] v] |].
  - rewrite (bind_Ret _ _ _ _ _ (DPanic_production _ _ _ _ Hdev)) in Hrun.
    rewrite (bind_Ret _ _ _ _ _ Hrun). reflexivity.
  - rewrite (bind_Ret _ _ _ _ _ Hrun). reflexivity.
Qed.

(** X17.  [WithValues] on a logger that is not in development mode
    always returns a logger, whatever the arguments.  The new logger
    writes to the same sinks under the same predicates, is enabled at
    the same levels, keeps the name, carries the receiver's fields
    followed by the fields of the pairs before the first offence, and
    has its cached view in order. *)
Theorem WithValues_production (l : logger) (keysAndValues : list Value)
  (s : World) :
  zap.development (zapLogger l) = false ->
  exists (l' : logger) (s' : World),
    logger_WithValues l keysAndValues s = (Ret l', s')
    /\ cached_view_ok l'
    /\ zapcore.routes (zap.core (zapLogger l')) =
         zapcore.routes (zap.core (zapLogger l))
    /\ (forall L : zapcore.Level,
          zapcore.Enabled (zap.core (zapLogger l')) L =
            zapcore.Enabled (zap.core (zapLogger l)) L)
    /\ context_fields (zap.core (zapLogger l')) =
         context_fields (zap.core (zapLogger l)) ++
         map pair_field (wellFormedPrefix keysAndValues)
    /\ zap.name (zapLogger l') = zap.name (zapLogger l)
    /\ zap.development (zapLogger l') = false.
Proof.
  intros Hdev. do 2 eexists. split; [apply logger_WithValues_run, Hdev |].
  cbn [NewLogger zapLogger].
  set (fs := map pair_field (wellFormedPrefix keysAndValues)).
  destruct (With_core (zapLogger l) fs 0%Z) as (H1 & _ & H3 & H4 & H5).
  split; [split; reflexivity |]. split; [exact H1 |].
  split; [intros L; apply (With_core (zapLogger l) fs L) |].
  split; [exact H3 |]. split; [exact H5 | congruence].
Qed.

(** X18.  Attaching two well-formed lists one after the other gives a
    logger that carries the same fields, in the same order, as attaching
    their concatenation at once: the receiver's fields, then the first
    list's, then the second's.  No diagnostic is raised on the way, in
    development mode or not. *)
Theorem WithValues_twice (l : logger) (kvs1 kvs2 : list (string * Value))
  (s : World) :
  exists l1 l2 l12 : logger,
    logger_WithValues l (flatten_pairs kvs1) s = (Ret l1, s)
    /\ logger_WithValues l1 (flatten_pairs kvs2) s = (Ret l2, s)
    /\ logger_WithValues l (flatten_pairs (kvs1 ++ kvs2)) s = (Ret l12, s)
    /\ context_fields (zap.core (zapLogger l2)) =
         context_fields (zap.core (zapLogger l)) ++
         map pair_field kvs1 ++ map pair_field kvs2
    /\ context_fields (zap.core (zapLogger l12)) =
         context_fields (zap.core (zapLogger l2)).
Proof.
  assert (Hrun : forall (l0 : logger) (kvs : list (string * Value)),
            logger_WithValues l0 (flatten_pairs kvs) s =
              (Ret (NewLogger (zap_Logger_With (zapLogger l0)
                                 (map pair_field kvs))), s)).
  { intros l0 kvs. unfold logger_WithValues.
    pose proof (handleFields_run (zapLogger l0) (flatten_pairs kvs) [] s) as H.
    destruct (wellFormedPrefix_flatten kvs []) as [E1 E2].
    rewrite (app_nil_r (flatten_pairs kvs)) in E1, E2. cbn in E1, E2.
    rewrite (app_nil_r kvs) in E1. rewrite E1, E2, app_nil_r in H.
    rewrite (bind_Ret _ _ _ _ _ H). reflexivity. }
  do 3 eexists. split; [apply Hrun |]. split; [apply Hrun |].
  split; [apply Hrun |]. cbn [NewLogger zapLogger].
  destruct (With_core (zapLogger l) (map pair_field kvs1) 0%Z)
    as (_ & _ & E1 & _).
  destruct (With_core (zap_Logger_With (zapLogger l) (map pair_field kvs1))
              (map pair_field kvs2) 0%Z) as (_ & _ & E2 & _).
  destruct (With_core (zapLogger l) (map pair_field (kvs1 ++ kvs2)) 0%Z)
    as (_ & _ & E3 & _).
  rewrite E2, E1, E3, map_app, <- app_assoc. split; reflexivity.
Qed.

(** X19.  Naming a logger and attaching fields to it commute: either
    order gives the same logger.  Neither changes the sinks, their
    predicates or the levels enabled, and an empty name or an empty
    field list gives a logger on the receiver's own zap logger. *)
Theorem WithName_WithFields_commute (l : logger) (name : string)
  (fields : list Field) :
  logger_WithName (logger_WithFields l fields) name =
    logger_WithFields (logger_WithName l name) fields
  /\ zapcore.routes (zap.core (zapLogger
       (logger_WithName (logger_WithFields l fields) name))) =
       zapcore.routes (zap.core (zapLogger l))
  /\ (forall L : zapcore.Level,
        zapcore.Enabled (zap.core (zapLogger
          (logger_WithName (logger_WithFields l fields) name))) L =
          zapcore.Enabled (zap.core (zapLogger l)) L)
  /\ zapLogger (logger_WithName l "") = zapLogger l
  /\ zapLogger (logger_WithFields l []) = zapLogger l.
Proof.
  unfold logger_WithName, logger_WithFields, zap_Logger_Named, zap_Logger_With.
  cbn [NewLogger zapLogger].
  destruct (decide (name = "")), fields; cbn; repeat split; reflexivity.
Qed.

(** [the_logger] when [_logger] is set. *)
Lemma the_logger_run (s : World) (lg : logger) :
  _logger s = Some lg -> the_logger s = (Ret lg, s).
Proof. intros E. unfold the_logger. rewrite E. reflexivity. Qed.

(** X20.  After a successful [Init], the package function [V] returns a
    live view, bound to the requested level and to the stored logger's
    backend, exactly for the levels from the configured one up to
    fatal, and the disabled view for every other level. *)
Theorem Init_then_V (opts : Options) (L : Level) (s : World) :
  open_failures (OutputPaths opts) = [] ->
  open_failures (ErrorOutputPaths opts) = [] ->
  exists (lg : logger) (s' : World),
    (Init (Some opts) ;; V L) s =
      (Ret (if ((zap.Level (zapConfigFromOpts opts) <=? L)
                && (L <=? zapcore.FatalLevel))%Z
            then live {| level := L; log := zapLogger lg |}
            else noop disabledInfoLogger),
       s')
    /\ _logger s' = Some lg.
Proof.
  intros Hout Herr. exists (Init_logger opts). eexists.
  pose proof (Init_run opts s) as Hinit. rewrite Hout, Herr in Hinit.
  cbv zeta in Hinit.
  match type of Hinit with _ = (_, ?w) => set (s1 := w) in * end.
  rewrite (bind_Ret _ _ _ _ _ Hinit).
  unfold V.
  rewrite (bind_Ret _ _ _ _ _ (the_logger_run s1 (Init_logger opts) eq_refl)).
  rewrite logger_V_run. split.
  - apply f_equal2; [| reflexivity]. f_equal.
    rewrite Init_logger_core. cbn [zapcore.Enabled existsb].
    rewrite orb_false_r, !levelFunc_bool, maxLevel_max.
    set (B := zap.Level (zapConfigFromOpts opts)).
    unfold zapcore.WarnLevel, zapcore.FatalLevel.
    repeat match goal with
           | |- context [Z.leb ?a ?b] =>
               destruct (Z.leb_spec a b); try (exfalso; lia)
           end;
      reflexivity.
  - reflexivity.
Qed.


(** X22.  With a logger that is not in development mode, the fields of
    the pairs that open an argument list are never lost, whatever
    follows them: they come first in the result, in order, and the
    additional fields come last. *)
Theorem handleFields_keeps_leading_pairs (l : zap.Logger)
  (kvs : list (string * Value)) (rest : list Value)
  (additional : list Field) (s : World) :
  zap.development l = false ->
  exists more : list Field,
    (handleFields l (flatten_pairs kvs ++ rest) additional s).1 =
      Ret (map pair_field kvs ++ more ++ additional).
Proof.
  intros Hdev. exists (map pair_field (wellFormedPrefix rest)).
  rewrite handleFields_run.
  destruct (wellFormedPrefix_flatten kvs rest) as [-> ->].
  rewrite map_app, <- app_assoc.
  destruct (offence rest) as [[[m key] v] |]; [| reflexivity].
  rewrite (bind_Ret _ _ _ _ _ (DPanic_production _ _ _ _ Hdev)). reflexivity.
Qed.

(** X23.  Whenever [handleFields] returns, it returns the additional
    fields after at most one new field for every two arguments: it never
    makes a field of an unmatched or rejected argument. *)
Theorem handleFields_length (l : zap.Logger) (args : list Value)
  (additional fs : list Field) (s : World) :
  (handleFields l args additional s).1 = Ret fs ->
  exists new : list Field,
    fs = new ++ additional /\ (2 * length new <= length args)%nat.
Proof.
  rewrite handleFields_run. intros Hret.
  exists (map pair_field (wellFormedPrefix args)). split.
  - destruct (offence args) as [[[m key] v] |]; [| cbn in Hret; congruence].
    unfold mbind, M_bind in Hret.
    destruct (zap_Logger_DPanic l m [Any key v] s) as [[[] | | |] s'];
      cbn in Hret; congruence.
  - rewrite length_map. apply wellFormedPrefix_length.
Qed.

End Package.

(** ** The functions and the theorems at sample inputs *)

Example handleFields_odd_args :
  handleFields stderr_logger odd_args [Any "err" VNil] empty_world =
    (Ret [Any "elapsedMs" (VInt 120); Any "err" VNil],
     logged empty_world
       (EvLog zapcore.DPanicLevel
          "odd number of arguments passed as key-value pairs for logging"
          [Any "ignored key" (VString "op")])).
Proof. reflexivity. Qed.

Example handleFields_numeric_key :
  handleFields stderr_logger numeric_key_args [] empty_world =
    (Ret [Any "a" (VInt 1)],
     logged empty_world
       (EvLog zapcore.DPanicLevel
          "non-string key argument passed to logging, ignoring all later arguments"
          [Any "invalid key" (VInt 2)])).
Proof. reflexivity. Qed.

Example handleFields_field_key :
  handleFields stderr_logger field_key_args [] empty_world =
    (Ret [Any "a" (VInt 1)],
     logged empty_world
       (EvLog zapcore.DPanicLevel "strongly-typed Zap Field passed to logr"
          [Any "zap field" (VField (Any "k" VNil))])).
Proof. reflexivity. Qed.

Example handleFields_paired_args :
  handleFields stderr_logger paired_args [Any "err" VNil] empty_world =
    (Ret [Any "a" (VInt 1); Any "b" (VField (Any "k" VNil)); Any "err" VNil],
     empty_world).
Proof. reflexivity. Qed.

(** In development mode the diagnostic call panics. *)
Example handleFields_development :
  handleFields development_logger odd_args [] empty_world =
    (Panicked
       (PanicString "odd number of arguments passed as key-value pairs for logging"),
     logged empty_world
       (EvLog zapcore.DPanicLevel
          "odd number of arguments passed as key-value pairs for logging"
          [Any "ignored key" (VString "op")])).
Proof. reflexivity. Qed.

Example buildWriteSyncer_stderr_closed :
  buildWriteSyncer stderr_closed ["stdout"; "/var/log/app.log"; "stderr"]
    _defaultRotateOpts empty_world =
    (Ret (None,
          Some (Errorf "build rotate options has err: %+v"
                  [Err "open stderr: bad file descriptor"])),
     logged_all empty_world [EvOpen "stdout"; EvClose "stdout"]).
Proof. vm_compute. reflexivity. Qed.

Example Init_defaults_trace :
  trace (Init streams_open parse_level (Some NewOptions) empty_world).2 =
    [EvOpen "stdout"; EvOpen "stderr"; EvNew; EvKlogInit; EvRedirectStdLog].
Proof. vm_compute. reflexivity. Qed.

Example Init_stderr_closed :
  (Init stderr_closed parse_level (Some NewOptions) empty_world).1 =
    Panicked (PanicError (Errorf "build rotate options has err: %+v"
                            [Err "open stderr: bad file descriptor"])).
Proof. vm_compute. reflexivity. Qed.

Lemma handleFields_malformed_witness :
  malformed odd_args = true
  /\ zap.development stderr_logger = false
  /\ exists (kvs : list (string * Value)) (msg key : string) (v : Value),
       flatten_pairs kvs = take (2 * length kvs) odd_args
       /\ odd_args !! (2 * length kvs)%nat = Some v
       /\ (is_string v = false \/ length odd_args = S (2 * length kvs))
       /\ handleFields stderr_logger odd_args [] empty_world =
            (Ret (map pair_field kvs ++ []),
             logged empty_world (EvLog zapcore.DPanicLevel msg [Any key v])).
Proof.
  split; [reflexivity | split; [reflexivity |]].
  apply handleFields_malformed; reflexivity.
Defined.

Lemma handleFields_wellFormed_witness :
  wellFormed paired_args = true
  /\ exists kvs : list (string * Value),
       paired_args = flatten_pairs kvs
       /\ handleFields stderr_logger paired_args [Any "err" VNil] empty_world =
            (Ret (map pair_field kvs ++ [Any "err" VNil]), empty_world).
Proof.
  split; [reflexivity |].
  apply (proj2 (handleFields_wellFormed stderr_logger paired_args
                  [Any "err" VNil] empty_world)).
  reflexivity.
Defined.

Lemma levelFunc_spec_witness :
  (zapcore.ErrorLevel < zapcore.PanicLevel)%Z
  /\ levelFunc zapcore.PanicLevel zapcore.ErrorLevel zapcore.PanicLevel = false.
Proof.
  split; [reflexivity |].
  apply (proj2 (levelFunc_spec zapcore.PanicLevel zapcore.ErrorLevel
                  zapcore.InfoLevel)).
  left. reflexivity.
Defined.

Lemma Init_routes_witness :
  open_failures streams_open (OutputPaths NewOptions) = []
  /\ open_failures streams_open (ErrorOutputPaths NewOptions) = []
  /\ exists (lg : logger) (s' : World)
       (accepts_out accepts_err : zapcore.Level -> bool),
       Init streams_open parse_level (Some NewOptions) empty_world = (Ret tt, s')
       /\ _logger s' = Some lg
       /\ _options s' = Some NewOptions
       /\ zapcore.routes (zap.core (zapLogger lg)) =
            [ (CombineWriteSyncers
                 (map (path_sink (buildRotationOpts (Some NewOptions)))
                    (OutputPaths NewOptions)),
               accepts_out);
              (CombineWriteSyncers
                 (map (path_sink (buildRotationOpts (Some NewOptions)))
                    (ErrorOutputPaths NewOptions)),
               accepts_err) ]
       /\ forall L : zapcore.Level,
            let B := zap.Level (zapConfigFromOpts parse_level NewOptions) in
            (accepts_out L = true <-> (B <= L <= zapcore.WarnLevel)%Z)
            /\ (accepts_err L = true <->
                  (Z.max B zapcore.WarnLevel <= L <= zapcore.FatalLevel)%Z)
            /\ ((zapcore.ErrorLevel <= L)%Z -> accepts_out L = false).
Proof.
  split; [vm_compute; reflexivity | split; [vm_compute; reflexivity |]].
  apply Init_routes; vm_compute; reflexivity.
Defined.

Lemma buildWriteSyncer_spec_witness :
  open_failures stderr_closed ["stdout"; "/var/log/app.log"; "stderr"] <> []
  /\ buildWriteSyncer stderr_closed ["stdout"; "/var/log/app.log"; "stderr"]
       _defaultRotateOpts empty_world =
       (Ret (None,
             Some (Errorf "build rotate options has err: %+v"
                     (open_failures stderr_closed
                        ["stdout"; "/var/log/app.log"; "stderr"]))),
        logged_all empty_world
          (map EvOpen (opened stderr_closed
                         ["stdout"; "/var/log/app.log"; "stderr"]) ++
           map EvClose (opened stderr_closed
                          ["stdout"; "/var/log/app.log"; "stderr"]))).
Proof.
  assert (H : open_failures stderr_closed
                ["stdout"; "/var/log/app.log"; "stderr"] <> []).
  { vm_compute. discriminate. }
  split; [exact H |].
  apply (proj1 (proj2 (buildWriteSyncer_spec stderr_closed
                         ["stdout"; "/var/log/app.log"; "stderr"]
                         _defaultRotateOpts empty_world))).
  exact H.
Defined.

Lemma zapConfigFromOpts_level_witness :
  parse_level 0%Z "verbose" = (0%Z, Some (Err "unrecognized level"))
  /\ zap.Level (zapConfigFromOpts parse_level (options_with_level "verbose"))
       = InfoLevel
  /\ parse_level 0%Z "ERROR" = (zapcore.ErrorLevel, None)
  /\ zap.Level (zapConfigFromOpts parse_level (options_with_level "ERROR"))
       = zapcore.ErrorLevel.
Proof.
  split; [reflexivity |]. split.
  - apply (proj1 (zapConfigFromOpts_level parse_level
                    (options_with_level "verbose"))
             0%Z (Err "unrecognized level")).
    reflexivity.
  - split; [reflexivity |].
    apply (proj2 (zapConfigFromOpts_level parse_level
                    (options_with_level "ERROR"))
             zapcore.ErrorLevel).
    reflexivity.
Defined.

Lemma newTee_spec_witness :
  Exists (fun t => w t = None)
    [ {| w := Some Stdout; enabler := levelFunc InfoLevel WarnLevel |};
      {| w := None; enabler := levelFunc WarnLevel zapcore.FatalLevel |} ]
  /\ newTee
       [ {| w := Some Stdout; enabler := levelFunc InfoLevel WarnLevel |};
         {| w := None; enabler := levelFunc WarnLevel zapcore.FatalLevel |} ]
       (buildEncoder (zapConfigFromOpts parse_level NewOptions)) []
       empty_world =
       (Panicked (PanicString "the writer is nil"), empty_world).
Proof.
  assert (H : Exists (fun t => w t = None)
    [ {| w := Some Stdout; enabler := levelFunc InfoLevel WarnLevel |};
      {| w := None; enabler := levelFunc WarnLevel zapcore.FatalLevel |} ]).
  { apply Exists_cons_tl, Exists_cons_hd. reflexivity. }
  split; [exact H |].
  apply (proj1 (newTee_spec _ _ _ _)). exact H.
Defined.

Lemma buildRotationOpts_spec_witness :
  MaxSizeInMB NewOptions = MaxSizeInMB (options_with_level "info")
  /\ MaxAgeInDays NewOptions = MaxAgeInDays (options_with_level "info")
  /\ MaxBackups_ (options_with_level "info") = 5%Z
  /\ Compress_ (options_with_level "info") = true
  /\ buildRotationOpts (Some NewOptions)
       = buildRotationOpts (Some (options_with_level "info")).
Proof.
  repeat (split; [reflexivity |]).
  apply (proj2 (proj2 buildRotationOpts_spec)); reflexivity.
Defined.

(** ** The further theorems at sample inputs *)

Example buildZapOptions_sorted_fields :
  buildZapOptions fields_config None =
    [zap.ErrorOutput None;
     zap.Fields [Any "app" (VString "api"); Any "zone" (VString "eu")]].
Proof. vm_compute. reflexivity. Qed.

Example Init_file_options_stderr_closed :
  Init stderr_closed parse_level (Some file_options) empty_world =
    (Panicked (PanicError (Errorf "build rotate options has err: %+v"
                             [Err "open stderr: bad file descriptor"])),
     {| trace := []; _logger := None; _options := Some file_options |}).
Proof. vm_compute. reflexivity. Qed.

Lemma Init_level_gating_witness :
  exists (lg : logger) (s' : World),
    Init streams_open parse_level (Some file_options) empty_world = (Ret tt, s')
    /\ _logger s' = Some lg
    /\ forall L : zapcore.Level,
         zapcore.Enabled (zap.core (zapLogger lg)) L = true
         <-> (zap.Level (zapConfigFromOpts parse_level file_options) <= L
              <= zapcore.FatalLevel)%Z.
Proof. apply Init_level_gating; vm_compute; reflexivity. Defined.


Lemma Init_output_failure_witness :
  open_failures stderr_closed (OutputPaths file_options) <> []
  /\ Init stderr_closed parse_level (Some file_options) empty_world =
       (Panicked (PanicError
          (Errorf "build rotate options has err: %+v"
             (open_failures stderr_closed (OutputPaths file_options)))),
        {| trace := trace empty_world
                    ++ map EvOpen (opened stderr_closed (OutputPaths file_options))
                    ++ map EvClose (opened stderr_closed (OutputPaths file_options));
           _logger := _logger empty_world;
           _options := Some file_options |}).
Proof.
  assert (H : open_failures stderr_closed (OutputPaths file_options) <> [])
    by (vm_compute; discriminate).
  split; [exact H | apply Init_output_failure, H].
Defined.

Lemma Init_error_output_failure_witness :
  open_failures stderr_closed (OutputPaths NewOptions) = []
  /\ open_failures stderr_closed (ErrorOutputPaths NewOptions) <> []
  /\ Init stderr_closed parse_level (Some NewOptions) empty_world =
       (Panicked (PanicError
          (Errorf "build rotate options has err: %+v"
             (open_failures stderr_closed (ErrorOutputPaths NewOptions)))),
        {| trace := trace empty_world
                    ++ map EvOpen (opened stderr_closed (OutputPaths NewOptions))
                    ++ map EvOpen (opened stderr_closed (ErrorOutputPaths NewOptions))
                    ++ map EvClose (opened stderr_closed (ErrorOutputPaths NewOptions));
           _logger := _logger empty_world;
           _options := Some NewOptions |}).
Proof.
  assert (H1 : open_failures stderr_closed (OutputPaths NewOptions) = [])
    by (vm_compute; reflexivity).
  assert (H2 : open_failures stderr_closed (ErrorOutputPaths NewOptions) <> [])
    by (vm_compute; discriminate).
  split; [exact H1 |]. split; [exact H2 |].
  apply Init_error_output_failure; assumption.
Defined.

Lemma Init_logger_settings_witness :
  DisableStacktrace file_options = true
  /\ Development file_options = true
  /\ exists (lg : logger) (s' : World),
       Init streams_open parse_level (Some file_options) empty_world = (Ret tt, s')
       /\ _logger s' = Some lg
       /\ zap.development (zapLogger lg) = Development file_options
       /\ zap.addCaller (zapLogger lg) = EnableCaller file_options
       /\ zap.addStack (zapLogger lg) = zapcore.PanicLevel
       /\ zap.callerSkip (zapLogger lg) = 1%Z
       /\ zap.errorOutput (zapLogger lg) =
            Some (CombineWriteSyncers
                    (map (path_sink (buildRotationOpts (Some file_options)))
                       (ErrorOutputPaths file_options))).
Proof.
  split; [reflexivity |]. split; [reflexivity |].
  apply Init_logger_settings; vm_compute; reflexivity.
Defined.


Lemma buildWriteSyncer_files_only_witness :
  buildWriteSyncer stderr_closed ["/var/log/a.log"; "/var/log/b.log"]
    _defaultRotateOpts empty_world =
    (Ret (Some (CombineWriteSyncers
                  (map (fun p => AddSync
                          {| Filename := p;
                             MaxSize := maxSize _defaultRotateOpts;
                             MaxBackups := maxBackups _defaultRotateOpts;
                             MaxAge := maxAge _defaultRotateOpts;
                             Compress := compress _defaultRotateOpts |})
                     ["/var/log/a.log"; "/var/log/b.log"])),
          None),
     empty_world).
Proof.
  apply buildWriteSyncer_files_only.
  repeat constructor; intros H; apply stdouts_elem in H;
    destruct H; discriminate.
Defined.

Lemma Init_file_sinks_witness :
  exists (lg : logger) (s' : World),
    Init streams_open parse_level (Some file_options) empty_world = (Ret tt, s')
    /\ _logger s' = Some lg
    /\ forall (r : WriteSyncer * (zapcore.Level -> bool)) (lj : lumberjack_Logger),
         r ∈ zapcore.routes (zap.core (zapLogger lg)) ->
         lj ∈ file_sinks r.1 ->
         (Filename lj ∈ OutputPaths file_options
          \/ Filename lj ∈ ErrorOutputPaths file_options)
         /\ (Filename lj ∉ _stdouts)
         /\ MaxSize lj = MaxSizeInMB file_options
         /\ MaxAge lj = MaxAgeInDays file_options
         /\ MaxBackups lj = 0%Z
         /\ Compress lj = false.
Proof. apply Init_file_sinks; vm_compute; reflexivity. Defined.

Lemma newTee_routes_witness :
  exists (lg : logger) (z : zap.Logger),
    newTee [ {| w := Some Stdout; enabler := levelFunc InfoLevel WarnLevel |} ]
      (NewConsoleEncoder (encoderConfigFromOpts NewOptions))
      [zap.AddCaller] empty_world = (Ret (lg, z), logged empty_world EvNew)
    /\ zapLogger lg = z
    /\ zapcore.routes (zap.core z) =
         omap route_of
           [ {| w := Some Stdout; enabler := levelFunc InfoLevel WarnLevel |} ]
    /\ length (zapcore.routes (zap.core z)) = 1
    /\ forall L : zapcore.Level,
         zapcore.Enabled (zap.core z) L =
           existsb (fun t => enabler t L)
             [ {| w := Some Stdout; enabler := levelFunc InfoLevel WarnLevel |} ].
Proof.
  apply (newTee_routes
           [ {| w := Some Stdout; enabler := levelFunc InfoLevel WarnLevel |} ]).
  - repeat constructor. discriminate.
  - reflexivity.
Defined.


Lemma Info_as_V_info_witness :
  cached_view_ok (NewLogger stderr_logger)
  /\ (logger_Info (NewLogger stderr_logger) "up" [] empty_world).1 =
       ((view ← logger_V (NewLogger stderr_logger) InfoLevel;
         @Info _ (InfoLogger_methods format_only) view "up" []) empty_world).1
  /\ entries (trace (logger_Info (NewLogger stderr_logger) "up" [] empty_world).2) =
       entries (trace ((view ← logger_V (NewLogger stderr_logger) InfoLevel;
                        @Info _ (InfoLogger_methods format_only) view "up" [])
                         empty_world).2).
Proof.
  assert (H : cached_view_ok (NewLogger stderr_logger)) by (split; reflexivity).
  split; [exact H |]. apply (Info_as_V_info format_only). exact H.
Defined.

Lemma Infow_disabled_witness :
  malformed odd_args = true
  /\ infoLogger_Infow info_view "slow" odd_args empty_world =
       (Ret tt, logged empty_world (EvCheck (level info_view) "slow")).
Proof.
  split; [reflexivity |]. apply Infow_disabled; reflexivity.
Defined.



Lemma WithValues_production_witness :
  exists (l' : logger) (s' : World),
    logger_WithValues (NewLogger stderr_logger) numeric_key_args empty_world
      = (Ret l', s')
    /\ cached_view_ok l'
    /\ zapcore.routes (zap.core (zapLogger l')) =
         zapcore.routes (zap.core (zapLogger (NewLogger stderr_logger)))
    /\ (forall L : zapcore.Level,
          zapcore.Enabled (zap.core (zapLogger l')) L =
            zapcore.Enabled (zap.core (zapLogger (NewLogger stderr_logger))) L)
    /\ context_fields (zap.core (zapLogger l')) =
         context_fields (zap.core (zapLogger (NewLogger stderr_logger))) ++
         map pair_field (wellFormedPrefix numeric_key_args)
    /\ zap.name (zapLogger l') = zap.name (zapLogger (NewLogger stderr_logger))
    /\ zap.development (zapLogger l') = false.
Proof. apply WithValues_production. reflexivity. Defined.

Lemma Init_then_V_witness :
  exists (lg : logger) (s' : World),
    (Init streams_open parse_level (Some NewOptions) ;; V zapcore.DebugLevel)
      empty_world =
      (Ret (if ((zap.Level (zapConfigFromOpts parse_level NewOptions)
                   <=? zapcore.DebugLevel)
                && (zapcore.DebugLevel <=? zapcore.FatalLevel))%Z
            then live {| level := zapcore.DebugLevel; log := zapLogger lg |}
            else noop disabledInfoLogger),
       s')
    /\ _logger s' = Some lg.
Proof. apply Init_then_V; vm_compute; reflexivity. Defined.

Lemma handleFields_keeps_leading_pairs_witness :
  exists more : list Field,
    (handleFields stderr_logger
       (flatten_pairs [("a", VInt 1)] ++ [VInt 2; VInt 3])
       [Any "err" VNil] empty_world).1 =
      Ret (map pair_field [("a", VInt 1)] ++ more ++ [Any "err" VNil]).
Proof. apply handleFields_keeps_leading_pairs. reflexivity. Defined.

Lemma handleFields_length_witness :
  exists new : list Field,
    [Any "elapsedMs" (VInt 120); Any "err" VNil] = new ++ [Any "err" VNil]
    /\ (2 * length new <= length odd_args)%nat.
Proof.
  apply (handleFields_length stderr_logger odd_args [Any "err" VNil]
           [Any "elapsedMs" (VInt 120); Any "err" VNil] empty_world).
  reflexivity.
Defined.

Lemma handleFields_malformed_development_witness :
  exists (msg key : string) (v : Value),
    handleFields development_logger field_key_args [] empty_world =
      (Panicked (PanicString msg),
       logged empty_world (EvLog zapcore.DPanicLevel msg [Any key v])).
Proof. apply handleFields_malformed_development; reflexivity. Defined.
